(** * Hierarchical clustering (pbnjay/clustering): engine, linkages, checkers
      and the distance-map cluster set, embedded from the Go sources.

    Conventions of the embedding:
    - Go's [float64] is Rocq's primitive binary64 [float]; every arithmetic
      operation and comparison of the source is the corresponding IEEE-754
      operation of [PrimFloat], rounded on its own.  (Go lets a compiler fuse
      [x*y + z] on some targets; every product of the evaluations below has
      the factor 0, 0.5, -0.5 or NaN and is exact, so they come out the same
      under fusion.)
    - Go's [int] cluster indices are [Z]; the indices of a run stay far from
      the 64-bit bounds, so no wrap-around is written out.
    - A Go runtime panic (index out of range, assignment to an entry of a nil
      map) is the [Panic] outcome of the [result] monad.
    - An enumeration with a callback ([EachCluster], [EachItem]) is the list of
      the values handed to the callback, in call order. *)

From Stdlib Require Import ZArith Floats Lia.
From stdpp Require Import gmap strings list fin_maps.

Open Scope Z_scope.

(** ** Go runtime panics *)

Inductive panic : Type :=
  | IndexOutOfRange
  | NilMapAssign.

Inductive result (A : Type) : Type :=
  | Ok (a : A)
  | Panic (p : panic).

Arguments Ok {A} a.
Arguments Panic {A} p.

#[global] Instance result_ret : MRet result := fun A a => Ok a.
#[global] Instance result_bind : MBind result := fun A B f m =>
  match m with
  | Ok a => f a
  | Panic p => Panic p
  end.

(** [s[i]] on a slice: panics outside [0, len s). *)
Definition index {A : Type} (s : list A) (i : Z) : result A :=
  if i <? 0 then Panic IndexOutOfRange
  else match s !! Z.to_nat i with
       | Some a => Ok a
       | None => Panic IndexOutOfRange
       end.

(** [for _, x := range xs { s = body(s, x) }] with a body that may panic. *)
Fixpoint foldM {A S : Type} (body : S → A → result S) (s : S) (xs : list A)
  : result S :=
  match xs with
  | [] => Ok s
  | x :: xs' => s' ← body s x; foldM body s' xs'
  end.

(** [math.MaxFloat64] *)
Definition MaxFloat64 : float := 0x1.fffffffffffffp+1023%float.

(** [float64(n)] for a length [n]. *)
Definition float64_of_len (n : nat) : float :=
  PrimFloat.of_uint63 (Uint63.of_Z (Z.of_nat n)).

(** A distance that is not negative and not NaN: [0 <= x] holds. *)
Definition nonneg (x : float) : Prop := (0 <=? x)%float = true.

Definition SFnonneg (f : spec_float) : Prop :=
  SFleb (S754_zero false) f = true.

(** ** Engine state and its two-level distance cache (hclust.go) *)

(** [type HClustering struct].  [lwCache] is nil ([[]]) and [distCache] is nil
    ([None]) in the struct literal of [Cluster]. *)
Record HClustering (L K C : Type) : Type := {
  hLinkageType : L;
  hChecker : K;
  hClusterSet : C;
  lwCache : list float;
  distCache : option (gmap Z (gmap Z float));
}.
Arguments hLinkageType {L K C} h.
Arguments hChecker {L K C} h.
Arguments hClusterSet {L K C} h.
Arguments lwCache {L K C} h.
Arguments distCache {L K C} h.

(** [m[x][y]] read from the two-level cache: the zero value when the cache is
    nil or either key is absent. *)
Definition cache_read (dc : option (gmap Z (gmap Z float))) (x y : Z) : float :=
  match dc with
  | Some m =>
      match m !! x with
      | Some row => default 0%float (row !! y)
      | None => 0%float
      end
  | None => 0%float
  end.

(** [m[x][y] = v]: panics when the row [m[x]] is a nil map, which it is when
    the cache is nil or has no row [x]. *)
Definition cache_write (dc : option (gmap Z (gmap Z float))) (x y : Z)
    (v : float) : result (option (gmap Z (gmap Z float))) :=
  match dc with
  | Some m =>
      match m !! x with
      | Some row => Ok (Some (<[x := <[y := v]> row]> m))
      | None => Panic NilMapAssign
      end
  | None => Panic NilMapAssign
  end.

(** [type clusterTreeLog struct] of checker.go. *)
Record clusterTreeLog (K : Type) : Type := { chk : K }.
Arguments chk {K} c.

Section Clustering.

Context {ClusterItem : Type} `{Countable ClusterItem}.

(** ** linkage.go *)

(** [type LinkageType interface]; [Put] may panic (a nil map in the
    accumulator), the other methods cannot. *)
Class LinkageType (L : Type) : Type := {
  Reset : L → L;
  Put : L → ClusterItem → ClusterItem → float → result L;
  Get : L → float;
  LWParams : L → list float;
}.

Record maxLinkage : Type := { maxDist : float }.

Definition maxLinkage_Reset (c : maxLinkage) : maxLinkage :=
  {| maxDist := (-1)%float |}.

Definition maxLinkage_Get (c : maxLinkage) : float := maxDist c.

Definition maxLinkage_Put (c : maxLinkage) (a b : ClusterItem) (dist : float)
  : result maxLinkage :=
  if (maxDist c <? dist)%float || (maxDist c <? 0)%float
  then Ok {| maxDist := dist |}
  else Ok c.

Definition maxLinkage_LWParams (c : maxLinkage) : list float :=
  [0.5; 0.5; 0; 0.5]%float.

#[global] Instance maxLinkage_LinkageType : LinkageType maxLinkage := {|
  Reset := maxLinkage_Reset;
  Put := maxLinkage_Put;
  Get := maxLinkage_Get;
  LWParams := maxLinkage_LWParams;
|}.

Record minLinkage : Type := { minDist : float }.

Definition minLinkage_Reset (c : minLinkage) : minLinkage :=
  {| minDist := (-1)%float |}.

Definition minLinkage_Get (c : minLinkage) : float := minDist c.

Definition minLinkage_Put (c : minLinkage) (a b : ClusterItem) (dist : float)
  : result minLinkage :=
  if (dist <? minDist c)%float || (minDist c <? 0)%float
  then Ok {| minDist := dist |}
  else Ok c.

Definition minLinkage_LWParams (c : minLinkage) : list float :=
  [0.5; 0.5; 0; -0.5]%float.

#[global] Instance minLinkage_LinkageType : LinkageType minLinkage := {|
  Reset := minLinkage_Reset;
  Put := minLinkage_Put;
  Get := minLinkage_Get;
  LWParams := minLinkage_LWParams;
|}.

(** [leftCounts] and [rightCounts] are Go maps used as sets; [None] is the nil
    map of a freshly allocated [avgLinkage]. *)
Record avgLinkage : Type := {
  avgDist : float;
  totalPairs : float;
  isWeighted : bool;
  leftCounts : option (gset ClusterItem);
  rightCounts : option (gset ClusterItem);
}.

Definition avgLinkage_Reset (c : avgLinkage) : avgLinkage :=
  if isWeighted c
  then {| avgDist := 0; totalPairs := 0; isWeighted := isWeighted c;
          leftCounts := leftCounts c; rightCounts := rightCounts c |}
  else {| avgDist := 0; totalPairs := 0; isWeighted := isWeighted c;
          leftCounts := Some ∅; rightCounts := Some ∅ |}.

Definition avgLinkage_Get (c : avgLinkage) : float :=
  if (totalPairs c <=? 0)%float then 0%float
  else (avgDist c / totalPairs c)%float.

(** [m[k] = struct{}{}] on a map used as a set. *)
Definition set_assign (m : option (gset ClusterItem)) (k : ClusterItem)
  : result (option (gset ClusterItem)) :=
  match m with
  | Some s => Ok (Some ({[k]} ∪ s))
  | None => Panic NilMapAssign
  end.

Definition avgLinkage_Put (c : avgLinkage) (a b : ClusterItem) (dist : float)
  : result avgLinkage :=
  let avg := (avgDist c + dist)%float in
  let tot := (totalPairs c + 1)%float in
  if isWeighted c
  then Ok {| avgDist := avg; totalPairs := tot; isWeighted := isWeighted c;
             leftCounts := leftCounts c; rightCounts := rightCounts c |}
  else
    l ← set_assign (leftCounts c) a;
    r ← set_assign (rightCounts c) b;
    Ok {| avgDist := avg; totalPairs := tot; isWeighted := isWeighted c;
          leftCounts := l; rightCounts := r |}.

(** [len(m)] of a possibly nil set. *)
Definition set_len (m : option (gset ClusterItem)) : nat :=
  match m with
  | Some s => size s
  | None => 0%nat
  end.

Definition avgLinkage_LWParams (c : avgLinkage) : list float :=
  if isWeighted c then [0.5; 0.5; 0; 0]%float
  else
    let ni := float64_of_len (set_len (leftCounts c)) in
    let nj := float64_of_len (set_len (rightCounts c)) in
    [ni / (ni + nj); nj / (ni + nj); 0; 0]%float.

#[global] Instance avgLinkage_LinkageType : LinkageType avgLinkage := {|
  Reset := avgLinkage_Reset;
  Put := avgLinkage_Put;
  Get := avgLinkage_Get;
  LWParams := avgLinkage_LWParams;
|}.

(** The constructors return freshly zeroed structs. *)
Definition CompleteLinkage : maxLinkage := {| maxDist := 0 |}.
Definition SingleLinkage : minLinkage := {| minDist := 0 |}.
Definition AverageLinkage : avgLinkage :=
  {| avgDist := 0; totalPairs := 0; isWeighted := false;
     leftCounts := None; rightCounts := None |}.
Definition WeightedAverageLinkage : avgLinkage :=
  {| avgDist := 0; totalPairs := 0; isWeighted := true;
     leftCounts := None; rightCounts := None |}.

(** The protocol of one score, as [dist] drives it: [Reset], one [Put] per
    observed item pair, [Get]. *)
Definition observe {L : Type} `{LinkageType L} (lt : L)
    (obs : list (ClusterItem * ClusterItem * float)) : result L :=
  foldM (fun lt1 o => Put lt1 o.1.1 o.1.2 o.2) lt obs.

Definition cycle {L : Type} `{LinkageType L} (lt : L)
    (obs : list (ClusterItem * ClusterItem * float)) : result (float * L) :=
  lt' ← observe (Reset lt) obs;
  Ok (Get lt', lt').

(** A strategy written by a caller of the library: the accumulator of
    complete linkage with a coefficient slice of the caller's choice. *)
Record customLinkage : Type := {
  accumulator : maxLinkage;
  coefficients : list float;
}.

#[global] Instance customLinkage_LinkageType : LinkageType customLinkage := {|
  Reset c := {| accumulator := maxLinkage_Reset (accumulator c);
                coefficients := coefficients c |};
  Put c a b dist :=
    m ← maxLinkage_Put (accumulator c) a b dist;
    Ok {| accumulator := m; coefficients := coefficients c |};
  Get c := maxLinkage_Get (accumulator c);
  LWParams c := coefficients c;
|}.

(** ** hclust.go: the data-source contract *)

(** [type ClusterSet interface].  [EachItem] and [Merge] may panic (an index
    outside the cluster slice).  [asOptimized] is the outcome of the type
    assertion [cs.(OptimizedClusterSet)]: the [EachItemDistance] method when
    the data source has one. *)
Class ClusterSet (C : Type) : Type := {
  Count : C → Z;
  EachCluster : C → Z → list Z;
  EachItem : C → Z → result (list ClusterItem);
  Distance : C → Z → Z → ClusterItem → ClusterItem → float;
  Merge : C → Z → Z → result (C * (Z * Z));
  asOptimized :
    option (C → Z → Z → ClusterItem → result (list (ClusterItem * float)));
}.

(** [defaultOptimizedClusterSet.EachItemDistance] *)
Definition default_EachItemDistance {C : Type} `{ClusterSet C}
    (cs : C) (c1 c2 : Z) (item1 : ClusterItem)
  : result (list (ClusterItem * float)) :=
  items ← EachItem cs c2;
  Ok (map (fun item2 => (item2, Distance cs c1 c2 item1 item2)) items).

(** ** checker.go *)

Class Checker (K C : Type) : Type := {
  Check : K → C → Z → Z → float → bool;
}.

Record simpleThreshold : Type := { threshold_val : float }.

Definition Threshold (t : float) : simpleThreshold := {| threshold_val := t |}.

#[global] Instance simpleThreshold_Checker {C : Type}
  : Checker simpleThreshold C := {|
  Check t clusters i j nextScore := (nextScore <=? threshold_val t)%float;
|}.

Record limitClustersCount : Type := { limit_val : Z }.

Definition MaxClusters (t : Z) : limitClustersCount := {| limit_val := t |}.

#[global] Instance limitClustersCount_Checker {C : Type} `{ClusterSet C}
  : Checker limitClustersCount C := {|
  Check t clusters i j nextScore := limit_val t <? Count clusters;
|}.

(** The log line written by [clusterTreeLog.Check] is not part of any state
    the engine reads; the decision is the wrapped checker's. *)
Definition TreeLog {K : Type} (c : K) : clusterTreeLog K := {| chk := c |}.

#[global] Instance clusterTreeLog_Checker {K C : Type} `{Checker K C}
  : Checker (clusterTreeLog K) C := {|
  Check c clusters i j nextScore := Check (chk c) clusters i j nextScore;
|}.

(** ** distancemap.go *)

Record distMapClusterSet : Type := {
  data : gmap ClusterItem (gmap ClusterItem float);
  clusters : list (list ClusterItem);
}.

(** [NewDistanceMapClusterSet].  Go leaves the iteration order of the two
    [range] loops over the maps unspecified; [visit] is the sequence in which
    they meet the keys (each [k1] followed by the [k2] of its row).  Every key
    met for the first time becomes a singleton cluster. *)
Definition NewDistanceMapClusterSet
    (dm : gmap ClusterItem (gmap ClusterItem float)) (visit : list ClusterItem)
  : distMapClusterSet :=
  {| data := dm;
     clusters :=
       snd (fold_left
              (fun (st : gset ClusterItem * list (list ClusterItem)) k =>
                 if decide (k ∈ fst st) then st
                 else ({[k]} ∪ fst st, snd st ++ [[k]]))
              visit (∅, [])) |}.

(** The entry stored for the ordered pair [(a, b)], if any. *)
Definition entry (dm : gmap ClusterItem (gmap ClusterItem float))
    (a b : ClusterItem) : option float :=
  dm !! a ≫= (fun x => x !! b).

Definition distMap_Count (d : distMapClusterSet) : Z :=
  Z.of_nat (length (clusters d)).

Definition distMap_EachCluster (d : distMapClusterSet) (start : Z) : list Z :=
  if Z.of_nat (length (clusters d)) <=? start + 1 then []
  else seqZ (start + 1) (Z.of_nat (length (clusters d)) - (start + 1)).

Definition distMap_EachItem (d : distMapClusterSet) (cluster : Z)
  : result (list ClusterItem) :=
  index (clusters d) cluster.

Definition distMap_Distance (d : distMapClusterSet) (c1 c2 : Z)
    (item1 item2 : ClusterItem) : float :=
  match
    match data d !! item1 with
    | Some x => x !! item2
    | None => None
    end
  with
  | Some y => y
  | None =>
      match
        match data d !! item2 with
        | Some x => x !! item1
        | None => None
        end
      with
      | Some y => y
      | None => 1%float
      end
  end.

Definition distMap_Merge (d : distMapClusterSet) (i j : Z)
  : result (distMapClusterSet * (Z * Z)) :=
  let '(i, j) := if j <? i then (j, i) else (i, j) in
  let x := Z.of_nat (length (clusters d)) - 1 in
  (* move the to-be-merged cluster to the end of the array *)
  '(cl, j) ←
    (if j <? x then
       cj ← index (clusters d) j;
       cx ← index (clusters d) x;
       Ok (<[Z.to_nat j := cx]> (<[Z.to_nat x := cj]> (clusters d)), x)
     else Ok (clusters d, j));
  ci ← index cl i;
  cj ← index cl j;
  let cl := <[Z.to_nat i := ci ++ cj]> cl in
  Ok ({| data := data d; clusters := take (Z.to_nat j) cl |}, (i, x)).

#[global] Instance distMap_ClusterSet : ClusterSet distMapClusterSet := {|
  Count := distMap_Count;
  EachCluster := distMap_EachCluster;
  EachItem := distMap_EachItem;
  Distance := distMap_Distance;
  Merge := distMap_Merge;
  asOptimized := None;
|}.

(** ** hclust.go: the engine *)

Section Engine.

Context {L K C : Type} `{LinkageType L} `{ClusterSet C} `{Checker K C}.

Definition with_linkage (h : HClustering L K C) (lt : L) : HClustering L K C :=
  {| hLinkageType := lt; hChecker := hChecker h; hClusterSet := hClusterSet h;
     lwCache := lwCache h; distCache := distCache h |}.

Definition with_distCache (h : HClustering L K C)
    (dc : option (gmap Z (gmap Z float))) : HClustering L K C :=
  {| hLinkageType := hLinkageType h; hChecker := hChecker h;
     hClusterSet := hClusterSet h; lwCache := lwCache h; distCache := dc |}.

Definition with_ClusterSet (h : HClustering L K C) (cs : C)
  : HClustering L K C :=
  {| hLinkageType := hLinkageType h; hChecker := hChecker h;
     hClusterSet := cs; lwCache := lwCache h; distCache := distCache h |}.

(** The type assertion of [dist] with its fallback to the default adapter. *)
Definition ocs_EachItemDistance (cs : C) (c1 c2 : Z) (item1 : ClusterItem)
  : result (list (ClusterItem * float)) :=
  match asOptimized with
  | Some f => f cs c1 c2 item1
  | None => default_EachItemDistance cs c1 c2 item1
  end.

(** The uncached part of [dist]: [Reset], one [Put] per item pair of clusters
    [i] and [j], [Get]. *)
Definition linkage_score (lt : L) (cs : C) (i j : Z) : result (float * L) :=
  items ← EachItem cs i;
  lt' ← foldM
          (fun lt1 a =>
             pairs ← ocs_EachItemDistance cs i j a;
             foldM (fun lt2 (p : ClusterItem * float) => Put lt2 a p.1 p.2)
                   lt1 pairs)
          (Reset lt) items;
  Ok (Get lt', lt').

Definition dist_compute (h : HClustering L K C) (i j : Z)
  : result (float * HClustering L K C) :=
  '(s, lt) ← linkage_score (hLinkageType h) (hClusterSet h) i j;
  let h := with_linkage h lt in
  match distCache h with
  | Some m =>
      dc ← cache_write (Some m) i j s;
      Ok (s, with_distCache h dc)
  | None => Ok (s, h)
  end.

(** [HClustering.dist] *)
Definition dist (h : HClustering L K C) (i j : Z)
  : result (float * HClustering L K C) :=
  match distCache h with
  | Some m =>
      let '(i, j) := if j <? i then (j, i) else (i, j) in
      match m !! i with
      | Some row =>
          match row !! j with
          | Some s => Ok (s, h)
          | None => dist_compute h i j
          end
      | None =>
          (* prep for saving to cache *)
          dist_compute (with_distCache h (Some (<[i := ∅]> m))) i j
      end
  | None => dist_compute h i j
  end.

(** The score of the pair with the cache discarded: [dist] on an engine whose
    [distCache] is a fresh empty map. *)
Definition dist_from_scratch (h : HClustering L K C) (i j : Z)
  : result (float * HClustering L K C) :=
  dist (with_distCache h (Some ∅)) i j.

(** The snapshot loop of [mergeAndUpdateAll]: [diks] and [djks]. *)
Definition snapshot (h : HClustering L K C) (i j nc : Z)
  : result (list float * list float * HClustering L K C) :=
  foldM
    (fun (st : list float * list float * HClustering L K C) k =>
       let '(diks, djks, h) := st in
       '(dik, h) ← dist h i k;
       '(djk, h) ← dist h j k;
       Ok (diks ++ [dik], djks ++ [djk], h))
    ([], [], h) (seqZ 0 nc).

(** "move cached distances from nj into r" *)
Definition move_cached (dc : option (gmap Z (gmap Z float))) (r nj nc : Z)
  : result (option (gmap Z (gmap Z float))) :=
  foldM
    (fun dc k =>
       if decide (k = nj) then Ok dc
       else
         let '(x1, y1) := if r <? k then (r, k) else (k, r) in
         let '(x2, y2) := if nj <? k then (nj, k) else (k, nj) in
         cache_write dc x1 y1 (cache_read dc x2 y2))
    dc (seqZ 0 nc).

(** "now remove unused cache values": [delete] is a no-op on a nil map and on
    an absent key. *)
Definition purge_cached (dc : option (gmap Z (gmap Z float))) (nj nc : Z)
  : option (gmap Z (gmap Z float)) :=
  fold_left
    (fun dc k =>
       match dc with
       | Some m =>
           if decide (k = nj) then Some (delete nj m)
           else
             match m !! k with
             | Some row => Some (<[k := delete nj row]> m)
             | None => Some m
             end
       | None => None
       end)
    (seqZ 0 nc) dc.

(** One Lance-Williams value:
    [lwCache[0]*dik + lwCache[1]*djk + lwCache[2]*origDist + lwCache[3]*dd]. *)
Definition lance_williams (lw : list float) (dik djk origDist : float)
  : result float :=
  let dd := (dik - djk)%float in
  let dd := if (dd <? 0)%float then (- dd)%float else dd in
  lw0 ← index lw 0;
  lw1 ← index lw 1;
  lw2 ← index lw 2;
  lw3 ← index lw 3;
  Ok (lw0 * dik + lw1 * djk + lw2 * origDist + lw3 * dd)%float.

(** "apply lance-williams update method to all affected pairs" *)
Definition lw_update (lw diks djks : list float) (origDist : float) (ni nc : Z)
    (dc : option (gmap Z (gmap Z float)))
  : result (option (gmap Z (gmap Z float))) :=
  foldM
    (fun dc k =>
       dik ← index diks k;
       djk ← index djks k;
       d ← lance_williams lw dik djk origDist;
       if ni <? k then cache_write dc ni k d else cache_write dc k ni d)
    dc (seqZ 0 nc).

(** [HClustering.mergeAndUpdateAll] *)
Definition mergeAndUpdateAll (h : HClustering L K C) (i j : Z)
  : result (HClustering L K C) :=
  let nc := Count (hClusterSet h) in
  '(diks, djks, h) ← snapshot h i j nc;
  origDist ← index diks j;
  '(cs, (ni, nj)) ← Merge (hClusterSet h) i j;
  let h := with_ClusterSet h cs in
  dc ←
    (if decide (nj ≠ j) then
       (* where did nj go to? *)
       let r := if decide (ni = j) then i else j in
       dc ← move_cached (distCache h) r nj nc;
       Ok (purge_cached dc nj nc)
     else Ok (distCache h));
  dc ← lw_update (lwCache h) diks djks origDist ni (nc - 1) dc;
  Ok (with_distCache h dc).

(** The first half of [MergeNext]: the coefficients and the cache are set up
    when [len(h.lwCache) != 4], then every pair is scored and the lowest score
    kept. *)
Definition prepare (h : HClustering L K C) : HClustering L K C :=
  if decide (length (lwCache h) ≠ 4%nat) then
    {| hLinkageType := hLinkageType h; hChecker := hChecker h;
       hClusterSet := hClusterSet h;
       lwCache := LWParams (hLinkageType h);
       distCache := Some ∅ |}
  else h.

(** The body of the inner callback of [MergeNext]. *)
Definition consider (best : float * option (Z * Z)) (c1 c2 : Z) (score : float)
  : float * option (Z * Z) :=
  if (score <? best.1)%float then (score, Some (c1, c2)) else best.

Definition best_pair (h : HClustering L K C)
  : result (float * option (Z * Z) * HClustering L K C) :=
  foldM
    (fun st c1 =>
       foldM
         (fun (st : float * option (Z * Z) * HClustering L K C) c2 =>
            let '(best, h) := st in
            '(score, h) ← dist h c1 c2;
            Ok (consider best c1 c2 score, h))
         st (EachCluster (hClusterSet st.2) c1))
    (MaxFloat64, None, h) (EachCluster (hClusterSet h) (-1)).

(** [HClustering.MergeNext] *)
Definition MergeNext (h : HClustering L K C)
  : result (bool * HClustering L K C) :=
  '(bestScore, bestPair, h) ← best_pair (prepare h);
  match bestPair with
  | None => Ok (false, h)
  | Some (c1, c2) =>
      if (bestScore =? MaxFloat64)%float then Ok (false, h)
      else if negb (Check (hChecker h) (hClusterSet h) c1 c2 bestScore)
      then Ok (false, h)
      else
        match distCache h with
        | None =>
            '(cs, _) ← Merge (hClusterSet h) c1 c2;
            Ok (true, with_ClusterSet h cs)
        | Some _ =>
            h ← mergeAndUpdateAll h c1 c2;
            Ok (true, h)
        end
  end.

(** The loop of [Cluster].  Nothing in the [ClusterSet] contract bounds the
    number of rounds, so the loop runs on [fuel]; [None] is fuel exhausted. *)
Fixpoint Cluster_loop (fuel : nat) (h : HClustering L K C)
  : option (result (HClustering L K C)) :=
  if 1 <? Count (hClusterSet h) then
    match fuel with
    | O => None
    | S fuel' =>
        match MergeNext h with
        | Ok (true, h') => Cluster_loop fuel' h'
        | Ok (false, h') => Some (Ok h')
        | Panic p => Some (Panic p)
        end
    end
  else Some (Ok h).

(** The struct literal at the head of [Cluster]. *)
Definition engine (c : C) (chk : K) (lt : L) : HClustering L K C :=
  {| hLinkageType := lt; hChecker := chk; hClusterSet := c;
     lwCache := []; distCache := None |}.

(** [Cluster] *)
Definition Cluster (fuel : nat) (c : C) (chk : K) (lt : L)
  : option (result (HClustering L K C)) :=
  Cluster_loop fuel (engine c chk lt).

End Engine.

End Clustering.

(** The item type of an accumulator and of a cluster set is written out. *)
Arguments avgLinkage ClusterItem {_ _}.
Arguments AverageLinkage ClusterItem {_ _}.
Arguments WeightedAverageLinkage ClusterItem {_ _}.
Arguments distMapClusterSet ClusterItem {_ _}.

(** ** Data of the package documentation and of its tests *)

(** The value a call returned, without the state it left. *)
Definition returned {A B : Type} (r : result (A * B)) : option A :=
  match r with
  | Ok (a, _) => Some a
  | Panic _ => None
  end.

Definition row (l : list (string * float)) : gmap string float :=
  list_to_map l.

(** The [DistanceMap] of the quick start (doc.go) and of
    [TestDistanceMapClustering3]. *)
Definition quickstart_map : gmap string (gmap string float) :=
  list_to_map
    [("a", row [("b", 0); ("c", 0); ("d", 1); ("e", 0x1.999999999999ap-2)]);
     ("b", row [("c", 0x1.999999999999ap-4); ("d", 0x1.ccccccccccccdp-1);
                ("e", 0x1.999999999999ap-2)]);
     ("c", row [("d", 0x1.ccccccccccccdp-1); ("e", 0x1.999999999999ap-3)]);
     ("d", row [("e", 0x1.999999999999ap-4)])]%float.

(** Its cluster set when the items are first met in the order [visit]. *)
Definition quickstart_set_in (visit : list string) : distMapClusterSet string :=
  NewDistanceMapClusterSet quickstart_map visit.

(** Its cluster set when the maps are ranged over in the order a, b, c, d, e. *)
Definition quickstart_set : distMapClusterSet string :=
  quickstart_set_in ["a"; "b"; "c"; "d"; "e"]%string.

(** Every order in which the five items can be met for the first time (and
    some that the nesting of the maps excludes). *)
Definition quickstart_orders : list (list string) :=
  permutations ["a"; "b"; "c"; "d"; "e"]%string.

(** [DistanceMap{"a": {"b": 0.0}}] of [TestDistanceMapClustering1]. *)
Definition pair_map : gmap string (gmap string float) :=
  list_to_map [("a", row [("b", 0%float)])].

Definition pair_set : distMapClusterSet string :=
  NewDistanceMapClusterSet pair_map ["a"; "b"]%string.

(** The engine after its first successful [MergeNext], if there is one. *)
Definition after_first_merge {L K : Type}
    `{LinkageType string L} `{Checker K (distMapClusterSet string)}
    (h : HClustering L K (distMapClusterSet string))
  : option (HClustering L K (distMapClusterSet string)) :=
  match MergeNext h with
  | Ok (true, h') => Some h'
  | _ => None
  end.

(** A data source whose cluster 0 has no item, next to the clusters of d and
    of e (distance 0.1 in the quick-start map). *)
Definition hollow_set : distMapClusterSet string :=
  {| data := quickstart_map; clusters := [[]; ["d"]; ["e"]]%string |}.

(** A caller's strategy with the coefficient slice [lw]. *)
Definition custom (lw : list float) : customLinkage :=
  {| accumulator := CompleteLinkage; coefficients := lw |}.

(** What a run of [Cluster] left in the data source. *)
Definition final_clusters {L K : Type}
    (r : option (result (HClustering L K (distMapClusterSet string))))
  : option (result (list (list string))) :=
  match r with
  | Some (Ok h) => Some (Ok (clusters (hClusterSet h)))
  | Some (Panic p) => Some (Panic p)
  | None => None
  end.

(** Whether a run of [Cluster] ended, without panic, on [n] clusters. *)
Definition ends_with {L K : Type} (n : nat)
    (r : option (result (HClustering L K (distMapClusterSet string)))) : bool :=
  match r with
  | Some (Ok h) => bool_decide (length (clusters (hClusterSet h)) = n)
  | _ => false
  end.

(** Whether a run of [Cluster] ended on a partition one of whose clusters
    holds exactly d and e. *)
Definition ends_with_de {L K : Type}
    (r : option (result (HClustering L K (distMapClusterSet string)))) : bool :=
  match r with
  | Some (Ok h) =>
      existsb (fun c => bool_decide (c ≡ₚ ["d"; "e"]%string))
              (clusters (hClusterSet h))
  | _ => false
  end.

(** The pair and the score the best-pair search of one [MergeNext] ends on. *)
Definition searched {L K : Type}
    `{LinkageType string L} `{Checker K (distMapClusterSet string)}
    (h : HClustering L K (distMapClusterSet string))
  : option (float * option (Z * Z)) :=
  returned (best_pair (prepare h)).

(** For a pair of clusters of the engine after its first merge: the clusters,
    the coefficients in use, the score [dist] answers and the score computed
    with the cache discarded. *)
Definition cached_and_fresh {L K : Type}
    `{LinkageType string L} `{Checker K (distMapClusterSet string)}
    (h : HClustering L K (distMapClusterSet string)) (i j : Z)
  : option (list (list string) * list float * option float * option float) :=
  h1 ← after_first_merge h;
  Some (clusters (hClusterSet h1), lwCache h1,
        returned (dist h1 i j), returned (dist_from_scratch h1 i j)).

(** ** Invariants used in the proofs *)

(** The invariant of the complete-linkage accumulator once it has seen the
    non-negative distances [seen]: it holds one of them, and none is larger. *)
Definition holds_max (seen : list float) (c : maxLinkage) : Prop :=
  nonneg (maxDist c) ∧ maxDist c ∈ seen ∧
  Forall (fun d => (d <=? maxDist c)%float = true) seen.

(** What [dist] never changes: the data source, the checker and the
    coefficients; and it never turns a cache into the nil map. *)
Definition same_setup {L K C : Type} (h h' : HClustering L K C) : Prop :=
  hClusterSet h' = hClusterSet h ∧ hChecker h' = hChecker h ∧
  lwCache h' = lwCache h ∧ (is_Some (distCache h) → is_Some (distCache h')).

Section Invariants.

Context {ClusterItem : Type} `{Countable ClusterItem}.

(** Every state of the average accumulator after [Reset] scores a stream of
    observations like the state with the same [isWeighted] flag whose sums
    are zero and whose sets are empty: the sets a weighted accumulator keeps
    across [Reset] are neither read nor written. *)
Definition same_sums (c1 c2 : avgLinkage ClusterItem) : Prop :=
  avgDist c1 = avgDist c2 ∧ totalPairs c1 = totalPairs c2 ∧
  isWeighted c1 = isWeighted c2 ∧
  (isWeighted c1 = false → leftCounts c1 = leftCounts c2
                           ∧ rightCounts c1 = rightCounts c2
                           ∧ is_Some (leftCounts c1)
                           ∧ is_Some (rightCounts c1)).

End Invariants.

(** The invariant of the single-linkage accumulator once it has seen the
    non-negative distances [seen]: it holds one of them, and none is smaller. *)
Definition holds_min (seen : list float) (c : minLinkage) : Prop :=
  nonneg (minDist c) ∧ minDist c ∈ seen ∧
  Forall (fun d => (minDist c <=? d)%float = true) seen.

(** The score the cache holds for a pair, under the ordered indices. *)
Definition cached (dc : option (gmap Z (gmap Z float))) (a b : Z) (v : float)
  : Prop :=
  ∃ m row, dc = Some m ∧ m !! Z.min a b = Some row
           ∧ row !! Z.max a b = Some v.

(** The rows of a cache: [cache_write] panics on a missing row, so the proofs
    that nothing panics follow which rows exist.  [rows_le dc dc'] when [dc']
    has every row of [dc]; [has_rows dc n] when the rows 0 .. n-1 exist;
    [row_at dc k] when row [k] exists. *)
Definition rows_le (dc dc' : option (gmap Z (gmap Z float))) : Prop :=
  ∀ m, dc = Some m →
       ∃ m', dc' = Some m' ∧ ∀ k, is_Some (m !! k) → is_Some (m' !! k).

Definition has_rows (dc : option (gmap Z (gmap Z float))) (n : Z) : Prop :=
  ∃ m, dc = Some m ∧ ∀ k, 0 ≤ k < n → is_Some (m !! k).

Definition row_at (dc : option (gmap Z (gmap Z float))) (k : Z) : Prop :=
  ∃ m, dc = Some m ∧ is_Some (m !! k).

(** The state of an engine that [Cluster] can reach: it holds a cache as
    soon as it holds four coefficients.  The struct literal of [Cluster] has
    no coefficient, and [MergeNext] allocates the cache when it reads them. *)
Definition cache_ready {L K C : Type} (h : HClustering L K C) : Prop :=
  length (lwCache h) = 4%nat → is_Some (distCache h).

Section SearchInvariant.

Context {ClusterItem : Type} `{Countable ClusterItem}.
Context {L K C : Type} `{ClusterSet ClusterItem C}.

(** What the best-pair search of [MergeNext] has established once the pairs
    in [V] are scored: the data source is untouched, each of these pairs has
    its score in the cache and none is below the best score, which is the
    cached score of the best pair. *)
Definition searched_over (h : HClustering L K C) (V : Z → Z → Prop)
    (st : float * option (Z * Z) * HClustering L K C) : Prop :=
  hClusterSet st.2 = hClusterSet h
  ∧ is_Some (distCache st.2)
  ∧ (∀ a b, V a b →
       ∃ v, cached (distCache st.2) a b v ∧ (v <? st.1.1)%float = false)
  ∧ match st.1.2 with
    | Some (a, b) =>
        a ∈ EachCluster (hClusterSet h) (-1)
        ∧ b ∈ EachCluster (hClusterSet h) a
        ∧ cached (distCache st.2) a b st.1.1
    | None => st.1.1 = MaxFloat64
    end.

End SearchInvariant.

(** * Properties *)

(** ** Order of the non-negative binary64 values *)

Ltac sf_compare :=
  repeat match goal with
    | |- context [Pos.compare_cont Eq ?a ?b] =>
        change (Pos.compare_cont Eq a b) with (Pos.compare a b)
    | Hc : context [Pos.compare_cont Eq ?a ?b] |- _ =>
        change (Pos.compare_cont Eq a b) with (Pos.compare a b) in Hc
    end;
  repeat match goal with
    | Hc : context [Z.compare ?a ?b] |- _ =>
        destruct (Z.compare_spec a b); subst
    | |- context [Z.compare ?a ?b] =>
        destruct (Z.compare_spec a b); subst
    | Hc : context [Pos.compare ?a ?b] |- _ =>
        destruct (Pos.compare_spec a b); subst
    | |- context [Pos.compare ?a ?b] =>
        destruct (Pos.compare_spec a b); subst
    end;
  simpl in *; try reflexivity; try discriminate; try lia.

Ltac sf_kind x :=
  destruct x as [[]|[]| |[] ? ?];
  unfold SFnonneg, SFleb, SFltb in *; simpl in *;
  try discriminate; try reflexivity.

Lemma SFltb_zero_nonneg x : SFnonneg x → SFltb x (S754_zero false) = false.
Proof. intros Hx. sf_kind x. Qed.

Lemma SFleb_refl_nonneg x : SFnonneg x → SFleb x x = true.
Proof. intros Hx. sf_kind x. sf_compare. Qed.

Lemma SFleb_ltb_trans x y z :
  SFnonneg x → SFnonneg y → SFnonneg z →
  SFleb x y = true → SFltb y z = true → SFleb x z = true.
Proof.
  intros Hx Hy Hz Hxy Hyz.
  sf_kind x; sf_kind y; sf_kind z; sf_compare.
Qed.

Lemma SFleb_total_nonneg x y :
  SFnonneg x → SFnonneg y → SFltb x y = false → SFleb y x = true.
Proof. intros Hx Hy Hxy. sf_kind x; sf_kind y; sf_compare. Qed.

Lemma SFltb_minus_one_nonneg x :
  SFnonneg x → SFltb (Prim2SF (-1)%float) x = true.
Proof. intros Hx. sf_kind x. Qed.

Lemma nonneg_SF x : nonneg x ↔ SFnonneg (Prim2SF x).
Proof. unfold nonneg, SFnonneg. rewrite leb_spec. reflexivity. Qed.

Lemma nonneg_not_negative x : nonneg x → (x <? 0)%float = false.
Proof.
  rewrite nonneg_SF, ltb_spec. apply SFltb_zero_nonneg.
Qed.

Lemma nonneg_leb_refl x : nonneg x → (x <=? x)%float = true.
Proof. rewrite nonneg_SF, leb_spec. apply SFleb_refl_nonneg. Qed.

Lemma nonneg_leb_ltb_trans x y z :
  nonneg x → nonneg y → nonneg z →
  (x <=? y)%float = true → (y <? z)%float = true → (x <=? z)%float = true.
Proof.
  rewrite !nonneg_SF, !leb_spec, ltb_spec. apply SFleb_ltb_trans.
Qed.

Lemma nonneg_leb_total x y :
  nonneg x → nonneg y → (x <? y)%float = false → (y <=? x)%float = true.
Proof.
  rewrite !nonneg_SF, leb_spec, ltb_spec. apply SFleb_total_nonneg.
Qed.

Lemma minus_one_below_nonneg x : nonneg x → (-1 <? x)%float = true.
Proof. rewrite nonneg_SF, ltb_spec. apply SFltb_minus_one_nonneg. Qed.

(** ** Loops *)

Lemma foldM_app {A S : Type} (body : S → A → result S) (s : S)
    (xs ys : list A) :
  foldM body s (xs ++ ys) = (s' ← foldM body s xs; foldM body s' ys).
Proof.
  revert s. induction xs as [|x xs IH]; intros s; simpl; [reflexivity|].
  destruct (body s x) as [s1|p]; simpl; [apply IH|reflexivity].
Qed.

(** A property kept by every successful round of a loop body is kept by the
    whole loop. *)
Lemma foldM_invariant {A S : Type} (P : S → Prop) (body : S → A → result S)
    (xs : list A) :
  (∀ s x s', P s → body s x = Ok s' → P s') →
  ∀ s s', P s → foldM body s xs = Ok s' → P s'.
Proof.
  intros Hstep. induction xs as [|x xs IH]; intros s s' Hs Hrun; simpl in Hrun.
  - congruence.
  - destruct (body s x) as [s1|p] eqn:Hb; simpl in Hrun; [|discriminate].
    eapply IH; [|exact Hrun]. eapply Hstep; eauto.
Qed.

(** ** linkage.go *)

Section LinkageProperties.

Context {ClusterItem : Type} `{Countable ClusterItem}.

Implicit Types obs : list (ClusterItem * ClusterItem * float).

Lemma observe_cons {L : Type} `{LinkageType ClusterItem L} (lt : L) o obs :
  observe lt (o :: obs) = (lt1 ← Put lt o.1.1 o.1.2 o.2; observe lt1 obs).
Proof. reflexivity. Qed.

Lemma maxLinkage_observe_total (c : maxLinkage) obs :
  ∃ c', observe c obs = Ok c'.
Proof.
  revert c. induction obs as [|o obs IH]; intros c.
  - exists c. reflexivity.
  - rewrite observe_cons. simpl. unfold maxLinkage_Put.
    destruct ((maxDist c <? o.2)%float || (maxDist c <? 0)%float); simpl;
      apply IH.
Qed.

Lemma minLinkage_observe_total (c : minLinkage) obs :
  ∃ c', observe c obs = Ok c'.
Proof.
  revert c. induction obs as [|o obs IH]; intros c.
  - exists c. reflexivity.
  - rewrite observe_cons. simpl. unfold minLinkage_Put.
    destruct ((o.2 <? minDist c)%float || (minDist c <? 0)%float); simpl;
      apply IH.
Qed.

Lemma maxLinkage_Put_holds_max seen (c : maxLinkage) (a b : ClusterItem) d :
  Forall nonneg seen → nonneg d → holds_max seen c →
  ∃ c', maxLinkage_Put c a b d = Ok c' ∧ holds_max (seen ++ [d]) c'.
Proof.
  intros Hseen Hd (Hm & Hin & Hle). unfold maxLinkage_Put.
  rewrite (nonneg_not_negative _ Hm), orb_false_r.
  destruct (maxDist c <? d)%float eqn:Hlt; eexists; split; try reflexivity.
  - split; [exact Hd|]. split; [set_solver|]. simpl.
    apply Forall_app; split.
    + rewrite Forall_forall in *. intros y Hy.
      apply nonneg_leb_ltb_trans with (maxDist c); auto.
    + constructor; [|constructor]. apply nonneg_leb_refl; exact Hd.
  - split; [exact Hm|]. split; [set_solver|].
    apply Forall_app; split; [exact Hle|].
    constructor; [|constructor]. apply nonneg_leb_total; auto.
Qed.

Lemma maxLinkage_observe_holds_max obs seen (c : maxLinkage) :
  Forall nonneg seen → Forall (fun o => nonneg o.2) obs → holds_max seen c →
  ∃ c', observe c obs = Ok c' ∧ holds_max (seen ++ obs.*2) c'.
Proof.
  revert seen c. induction obs as [|o obs IH]; intros seen c Hseen Hobs Hc.
  - exists c. rewrite app_nil_r. split; [reflexivity|exact Hc].
  - inversion Hobs as [|? ? Ho Hrest]; subst.
    destruct (maxLinkage_Put_holds_max seen c o.1.1 o.1.2 o.2 Hseen Ho Hc)
      as (c1 & Hput & Hc1).
    destruct (IH (seen ++ [o.2]) c1) as (c' & Hrun & Hc'); auto.
    { apply Forall_app; split; [exact Hseen|]. constructor; auto. }
    exists c'. split.
    + rewrite observe_cons. simpl. rewrite Hput. exact Hrun.
    + rewrite <- app_assoc in Hc'. exact Hc'.
Qed.

Lemma maxLinkage_Put_after_Reset (c : maxLinkage) (a b : ClusterItem) d :
  maxLinkage_Put (maxLinkage_Reset c) a b d = Ok {| maxDist := d |}.
Proof.
  unfold maxLinkage_Put, maxLinkage_Reset. cbn [maxDist].
  replace ((-1 <? 0)%float) with true by reflexivity.
  rewrite orb_true_r. reflexivity.
Qed.

(** C4, as amended: for complete linkage, [Reset] followed by [Put] calls
    whose distances are all non-negative (and not NaN) leaves in [Get] one of
    the observed distances that no observed distance exceeds, their maximum.
    With no [Put] at all [Get] is the sentinel -1, and the best-pair search
    of [MergeNext] does select that score: it is below [MaxFloat64] and
    below every non-negative best score found so far. *)
Theorem maxLinkage_Get_is_max_of_nonneg (c : maxLinkage) o obs :
  Forall (fun o' => nonneg o'.2) (o :: obs) →
  (∃ c', observe (maxLinkage_Reset c) (o :: obs) = Ok c'
         ∧ maxLinkage_Get c' ∈ (o :: obs).*2
         ∧ Forall (fun o' => (o'.2 <=? maxLinkage_Get c')%float = true)
                  (o :: obs))
  ∧ returned (cycle c ([] : list (ClusterItem * ClusterItem * float)))
    = Some (-1)%float
  ∧ (∀ c1 c2, consider (MaxFloat64, None) c1 c2 (-1)%float
              = ((-1)%float, Some (c1, c2)))
  ∧ (∀ best c1 c2, nonneg best.1 →
       consider best c1 c2 (-1)%float = ((-1)%float, Some (c1, c2))).
Proof.
  intros Hobs. split; [|split; [reflexivity|split]].
  - inversion Hobs as [|? ? Ho Hrest]; subst.
    rewrite observe_cons. simpl. rewrite maxLinkage_Put_after_Reset. simpl.
    destruct (maxLinkage_observe_holds_max obs [o.2] {| maxDist := o.2 |})
      as (c' & Hrun & Hn & Hin & Hle); auto.
    { split; [exact Ho|]. split; [set_solver|].
      constructor; [|constructor]. apply nonneg_leb_refl; exact Ho. }
    exists c'. split; [exact Hrun|]. split.
    + exact Hin.
    + rewrite Forall_forall in Hle. rewrite Forall_forall. intros o' Ho'.
      apply Hle. change ([o.2] ++ obs.*2) with ((o :: obs).*2).
      apply list_elem_of_fmap. exists o'. split; [reflexivity|exact Ho'].
  - intros c1 c2. reflexivity.
  - intros best c1 c2 Hb. unfold consider.
    rewrite (minus_one_below_nonneg _ Hb). reflexivity.
Qed.

Lemma avgLinkage_observe_same_sums obs (c1 c2 : avgLinkage ClusterItem) :
  same_sums c1 c2 →
  ∃ c1' c2', observe c1 obs = Ok c1' ∧ observe c2 obs = Ok c2'
             ∧ same_sums c1' c2'.
Proof.
  revert c1 c2. induction obs as [|o obs IH]; intros c1 c2 Hs.
  - exists c1, c2. auto.
  - rewrite !observe_cons. simpl. unfold avgLinkage_Put.
    destruct Hs as (Ha & Ht & Hw & Hsets). rewrite <- Hw, <- Ha, <- Ht.
    destruct (isWeighted c1) eqn:Hw1; simpl.
    + apply IH. split; [|split; [|split]]; simpl; try reflexivity.
      discriminate.
    + destruct Hsets as (Hl & Hr & [l Hl1] & [r Hr1]); [reflexivity|].
      rewrite <- Hl, <- Hr, Hl1, Hr1. simpl.
      apply IH. split; [|split; [|split]]; simpl; try reflexivity.
      intros _. eauto.
Qed.

Lemma avgLinkage_Reset_same_sums (c1 c2 : avgLinkage ClusterItem) :
  isWeighted c1 = isWeighted c2 →
  same_sums (avgLinkage_Reset c1) (avgLinkage_Reset c2).
Proof.
  intros Hw. unfold avgLinkage_Reset. rewrite <- Hw.
  destruct (isWeighted c1) eqn:Hw1;
    (split; [|split; [|split]]); simpl; try reflexivity.
  - discriminate.
  - intros _. eauto.
Qed.

Lemma avgLinkage_observe_isWeighted obs (c c' : avgLinkage ClusterItem) :
  observe c obs = Ok c' → isWeighted c' = isWeighted c.
Proof.
  revert c. induction obs as [|o obs IH]; intros c.
  - intros [= <-]. reflexivity.
  - rewrite observe_cons. simpl. unfold avgLinkage_Put.
    destruct (isWeighted c) eqn:Hw; simpl.
    + intros Hrun. apply IH in Hrun. simpl in Hrun. congruence.
    + destruct (set_assign (leftCounts c) o.1.1); simpl; [|discriminate].
      destruct (set_assign (rightCounts c) o.1.2); simpl; [|discriminate].
      intros Hrun. apply IH in Hrun. simpl in Hrun. congruence.
Qed.

(** C9: for each built-in linkage (complete, single, and the average
    accumulator in both its unweighted and its weighted variant), a
    Reset-Put*-Get cycle run from any state of the accumulator returns a
    score without panicking, and the same cycle run again on the state the
    first one left returns the identical score.  [Reset] zeroes the sums of
    the average accumulator and, in the unweighted variant, replaces both
    item sets by empty ones. *)
Theorem builtin_linkage_cycle_repeats obs :
  (∀ c : maxLinkage, ∃ r c1 c2,
      cycle c obs = Ok (r, c1) ∧ cycle c1 obs = Ok (r, c2))
  ∧ (∀ c : minLinkage, ∃ r c1 c2,
      cycle c obs = Ok (r, c1) ∧ cycle c1 obs = Ok (r, c2))
  ∧ (∀ c : avgLinkage ClusterItem, ∃ r c1 c2,
      cycle c obs = Ok (r, c1) ∧ cycle c1 obs = Ok (r, c2))
  ∧ (∀ c : avgLinkage ClusterItem,
      avgDist (avgLinkage_Reset c) = 0%float
      ∧ totalPairs (avgLinkage_Reset c) = 0%float
      ∧ (isWeighted c = false →
         leftCounts (avgLinkage_Reset c) = Some ∅
         ∧ rightCounts (avgLinkage_Reset c) = Some ∅)).
Proof.
  split; [|split; [|split]].
  - intros c. unfold cycle. simpl.
    destruct (maxLinkage_observe_total {| maxDist := (-1)%float |} obs)
      as [c1 Hrun].
    exists (maxLinkage_Get c1), c1, c1.
    unfold maxLinkage_Reset. rewrite Hrun. auto.
  - intros c. unfold cycle. simpl.
    destruct (minLinkage_observe_total {| minDist := (-1)%float |} obs)
      as [c1 Hrun].
    exists (minLinkage_Get c1), c1, c1.
    unfold minLinkage_Reset. rewrite Hrun. auto.
  - intros c. unfold cycle. simpl.
    destruct (avgLinkage_observe_same_sums obs
                (avgLinkage_Reset c) (avgLinkage_Reset c))
      as (c1 & _ & Hrun1 & _ & _).
    { apply avgLinkage_Reset_same_sums. reflexivity. }
    destruct (avgLinkage_observe_same_sums obs
                (avgLinkage_Reset c) (avgLinkage_Reset c1))
      as (c1' & c2 & Hrun1' & Hrun2 & Hs).
    { apply avgLinkage_Reset_same_sums.
      apply avgLinkage_observe_isWeighted in Hrun1.
      rewrite Hrun1. unfold avgLinkage_Reset.
      destruct (isWeighted c); reflexivity. }
    assert (c1' = c1) by congruence. subst c1'.
    exists (avgLinkage_Get c1), c1, c2.
    rewrite Hrun1, Hrun2. simpl. split; [reflexivity|].
    destruct Hs as (Ha & Ht & _). unfold avgLinkage_Get.
    rewrite Ha, Ht. reflexivity.
  - intros c. unfold avgLinkage_Reset.
    destruct (isWeighted c); simpl; split; try split; try reflexivity;
      try discriminate; intros _; split; reflexivity.
Qed.

End LinkageProperties.

(** ** The engine leaves the data source alone until it merges *)

Lemma bind_Ok_inv {A B : Type} (m : result A) (f : A → result B) (b : B) :
  m ≫= f = Ok b → ∃ a, m = Ok a ∧ f a = Ok b.
Proof. destruct m as [a|p]; simpl; [eauto|discriminate]. Qed.

Ltac bind_inv Hrun :=
  let a := fresh "a" in
  let Ha := fresh "Ha" in
  apply bind_Ok_inv in Hrun; destruct Hrun as (a & Ha & Hrun).

Section EngineProperties.

Context {ClusterItem : Type} `{Countable ClusterItem}.
Context {L K C : Type}.
Context `{LinkageType ClusterItem L} `{ClusterSet ClusterItem C} `{Checker K C}.

Implicit Types h : HClustering L K C.

Lemma same_setup_refl h : same_setup h h.
Proof. repeat split; auto. Qed.

Lemma same_setup_trans h1 h2 h3 :
  same_setup h1 h2 → same_setup h2 h3 → same_setup h1 h3.
Proof.
  intros (Ha & Hb & Hc & Hd) (Ha' & Hb' & Hc' & Hd').
  repeat split; try congruence. auto.
Qed.

Lemma dist_compute_same_setup h i j s h' :
  dist_compute h i j = Ok (s, h') → same_setup h h'.
Proof.
  unfold dist_compute. intros Hrun. bind_inv Hrun. destruct a as [s0 lt].
  simpl in Hrun. destruct (distCache h) as [m|] eqn:Hdc.
  - bind_inv Hrun. injection Hrun as <- <-.
    unfold cache_write in Ha0. destruct (m !! i); [|discriminate].
    injection Ha0 as <-. repeat split; simpl; eauto.
  - injection Hrun as <- <-. repeat split; simpl; auto.
Qed.

Lemma dist_same_setup h i j s h' : dist h i j = Ok (s, h') → same_setup h h'.
Proof.
  unfold dist. destruct (distCache h) as [m|] eqn:Hdc.
  - destruct (if j <? i then (j, i) else (i, j)) as [i' j'].
    destruct (m !! i') as [r|].
    + destruct (r !! j').
      * intros [= <- <-]. apply same_setup_refl.
      * apply dist_compute_same_setup.
    + intros Hrun. apply dist_compute_same_setup in Hrun.
      destruct Hrun as (Ha & Hb & Hc & Hd). repeat split; auto.
  - apply dist_compute_same_setup.
Qed.

Lemma best_pair_same_setup h best h' :
  best_pair h = Ok (best, h') → same_setup h h'.
Proof.
  unfold best_pair. intros Hrun.
  apply (foldM_invariant (fun st => same_setup h st.2)) in Hrun;
    [exact Hrun| |apply same_setup_refl].
  intros st c1 st' Hst Hin.
  apply (foldM_invariant (fun st => same_setup h st.2)) in Hin;
    [exact Hin| |exact Hst].
  intros [b1 h1] c2 st2 Hst1 Hstep. simpl in *.
  bind_inv Hstep. destruct a as [score h2]. simpl in Hstep.
  injection Hstep as <-. simpl.
  eapply same_setup_trans; [exact Hst1|]. eapply dist_same_setup; eauto.
Qed.

Lemma snapshot_same_setup h i j nc diks djks h' :
  snapshot h i j nc = Ok (diks, djks, h') → same_setup h h'.
Proof.
  unfold snapshot. intros Hrun.
  apply (foldM_invariant (fun st => same_setup h st.2)) in Hrun;
    [exact Hrun| |apply same_setup_refl].
  intros [[d1 d2] h1] k st' Hst Hstep. simpl in *.
  bind_inv Hstep. destruct a as [dik h2]. simpl in Hstep.
  bind_inv Hstep. destruct a as [djk h3]. simpl in Hstep.
  injection Hstep as <-. simpl.
  eapply same_setup_trans; [exact Hst|].
  eapply same_setup_trans; eapply dist_same_setup; eauto.
Qed.

(** [mergeAndUpdateAll] calls [Merge] once, on the data source it was given,
    and installs the cluster set that [Merge] returned. *)
Lemma mergeAndUpdateAll_merges_once h i j h' :
  mergeAndUpdateAll h i j = Ok h' →
  ∃ cs r, Merge (hClusterSet h) i j = Ok (cs, r) ∧ hClusterSet h' = cs
          ∧ hChecker h' = hChecker h ∧ lwCache h' = lwCache h.
Proof.
  unfold mergeAndUpdateAll. intros Hrun.
  bind_inv Hrun. destruct a as [[diks djks] h1]. simpl in Hrun.
  apply snapshot_same_setup in Ha. destruct Ha as (Hcs & Hchk & Hlw & _).
  bind_inv Hrun. bind_inv Hrun. destruct a0 as [cs [ni nj]]. simpl in Hrun.
  bind_inv Hrun. bind_inv Hrun. injection Hrun as <-.
  exists cs, (ni, nj). rewrite <- Hcs. simpl. auto.
Qed.

Lemma prepare_ClusterSet h : hClusterSet (prepare h) = hClusterSet h.
Proof. unfold prepare. destruct (decide _); reflexivity. Qed.

Lemma prepare_Checker h : hChecker (prepare h) = hChecker h.
Proof. unfold prepare. destruct (decide _); reflexivity. Qed.

(** [MergeNext] returning false has not called [Merge]: the data source is
    the one it started from.  Returning true, it has called [Merge] exactly
    once, on the data source it started from. *)
Lemma MergeNext_ClusterSet h b h' :
  MergeNext h = Ok (b, h') →
  if b then ∃ c1 c2 r, Merge (hClusterSet h) c1 c2 = Ok (hClusterSet h', r)
  else hClusterSet h' = hClusterSet h.
Proof.
  unfold MergeNext. intros Hrun.
  bind_inv Hrun. destruct a as [[bestScore bestPair] h1]. simpl in Hrun.
  apply best_pair_same_setup in Ha. destruct Ha as (Hcs & _).
  rewrite prepare_ClusterSet in Hcs.
  destruct bestPair as [[c1 c2]|].
  - destruct (bestScore =? MaxFloat64)%float.
    { injection Hrun as <- <-. exact Hcs. }
    destruct (negb _).
    { injection Hrun as <- <-. exact Hcs. }
    destruct (distCache h1).
    + bind_inv Hrun. injection Hrun as <- <-.
      apply mergeAndUpdateAll_merges_once in Ha.
      destruct Ha as (cs & r & Hm & Hcs' & _).
      exists c1, c2, r. rewrite <- Hcs, Hcs'. exact Hm.
    + bind_inv Hrun. destruct a as [cs r]. simpl in Hrun.
      injection Hrun as <- <-. exists c1, c2, r. simpl. rewrite <- Hcs.
      exact Ha.
  - injection Hrun as <- <-. exact Hcs.
Qed.

End EngineProperties.

(** ** distancemap.go *)

Lemma index_Ok_range {A : Type} (s : list A) (i : Z) (a : A) :
  index s i = Ok a → 0 ≤ i < Z.of_nat (length s).
Proof.
  unfold index. destruct (i <? 0) eqn:Hneg; [discriminate|].
  destruct (s !! Z.to_nat i) eqn:Hl; [|discriminate]. intros _.
  apply lookup_lt_Some in Hl. lia.
Qed.

Section DistMapProperties.

Context {ClusterItem : Type} `{Countable ClusterItem}.

Implicit Types d : distMapClusterSet ClusterItem.

(** A [Merge] that returns has removed exactly one cluster. *)
Lemma distMap_Merge_Count d i j d' r :
  distMap_Merge d i j = Ok (d', r) →
  distMap_Count d' = distMap_Count d - 1.
Proof.
  unfold distMap_Merge, distMap_Count. intros Hrun.
  destruct (if j <? i then (j, i) else (i, j)) as [i0 j0].
  bind_inv Hrun. destruct a as [cl j1]. simpl in Hrun.
  bind_inv Hrun. bind_inv Hrun. injection Hrun as <- <-. simpl.
  apply index_Ok_range in Ha1.
  assert (Hlen : length cl = length (clusters d)
                 ∧ Z.of_nat (length (clusters d)) - 1 ≤ j1).
  { destruct (j0 <? Z.of_nat (length (clusters d)) - 1) eqn:Hlt.
    - bind_inv Ha. bind_inv Ha. injection Ha as <- <-.
      rewrite !length_insert. lia.
    - injection Ha as <- <-. lia. }
  destruct Hlen as [Hlen Hj1].
  rewrite length_take, length_insert. lia.
Qed.

(** The documented lookup of the adjacency map: the entry for [(a, b)], else
    the entry for [(b, a)], else 1. *)
Lemma distMap_Distance_entry d c1 c2 a b :
  distMap_Distance d c1 c2 a b =
  match entry (data d) a b with
  | Some y => y
  | None => default 1%float (entry (data d) b a)
  end.
Proof.
  unfold distMap_Distance, entry.
  destruct (data d !! a) as [x|]; simpl;
    [destruct (x !! b); simpl; [reflexivity|]|];
    (destruct (data d !! b) as [x'|]; simpl;
     [destruct (x' !! a); reflexivity|reflexivity]).
Qed.

(** C8: [Distance] of the adjacency-map data source returns the entry stored
    for (a, b) when there is one, otherwise the entry stored for (b, a) when
    there is one, otherwise 1.0; the cluster indices play no part.  When the
    map has no entry for (b, a), both argument orders report the same
    distance. *)
Theorem distMap_Distance_lookup_order d c1 c2 a b :
  distMap_Distance d c1 c2 a b =
    match entry (data d) a b with
    | Some y => y
    | None => match entry (data d) b a with
              | Some y => y
              | None => 1%float
              end
    end
  ∧ (entry (data d) b a = None →
     ∀ c1' c2', distMap_Distance d c1' c2' b a = distMap_Distance d c1 c2 a b).
Proof.
  split.
  - rewrite distMap_Distance_entry.
    destruct (entry (data d) a b); [reflexivity|].
    destruct (entry (data d) b a); reflexivity.
  - intros Hba c1' c2'. rewrite !distMap_Distance_entry, Hba.
    destruct (entry (data d) a b); reflexivity.
Qed.

Section WithEngine.

Context {L K : Type}.
Context `{LinkageType ClusterItem L}.
Context `{Checker K (distMapClusterSet ClusterItem)}.

Implicit Types h : HClustering L K (distMapClusterSet ClusterItem).

Lemma MergeNext_distMap_Count h b h' :
  MergeNext h = Ok (b, h') →
  Count (hClusterSet h') = Count (hClusterSet h) - (if b then 1 else 0).
Proof.
  intros Hrun. apply MergeNext_ClusterSet in Hrun. destruct b.
  - destruct Hrun as (c1 & c2 & r & Hm). simpl in *.
    eapply distMap_Merge_Count; eauto.
  - rewrite Hrun. lia.
Qed.

(** The loop of [Cluster] never ends on a data source with more clusters
    than it started with. *)
Lemma Cluster_loop_distMap_Count fuel h hf :
  Cluster_loop fuel h = Some (Ok hf) →
  Count (hClusterSet hf) ≤ Count (hClusterSet h).
Proof.
  revert h. induction fuel as [|fuel IH]; intros h; simpl.
  - destruct (1 <? distMap_Count (hClusterSet h)); [discriminate|].
    intros [= <-]. lia.
  - destruct (1 <? distMap_Count (hClusterSet h)).
    + destruct (MergeNext h) as [[[] h1]|p] eqn:Hm; try discriminate.
      * intros Hrun. apply IH in Hrun.
        apply MergeNext_distMap_Count in Hm. simpl in *. lia.
      * intros [= <-]. apply MergeNext_distMap_Count in Hm. simpl in *. lia.
    + intros [= <-]. lia.
Qed.

(** On the distance map the loop needs no more rounds than there are
    clusters: with that much fuel it always comes to an end. *)
Lemma Cluster_loop_distMap_terminates fuel h :
  Count (hClusterSet h) ≤ Z.of_nat fuel + 1 →
  ∃ r, Cluster_loop fuel h = Some r.
Proof.
  revert h. induction fuel as [|fuel IH]; intros h Hfuel; simpl in *.
  - destruct (1 <? distMap_Count (hClusterSet h)) eqn:Hc; [lia|eauto].
  - destruct (1 <? distMap_Count (hClusterSet h)) eqn:Hc; [|eauto].
    destruct (MergeNext h) as [[[] h1]|p] eqn:Hm; eauto.
    apply IH. apply MergeNext_distMap_Count in Hm. simpl in *. lia.
Qed.

(** C6: on the distance-map data source, with any linkage strategy and any
    checker, a [MergeNext] that returns true leaves [Count()] exactly one
    lower, a [MergeNext] that returns false leaves it as it was, and a run of
    [Cluster] started from the same engine never ends with a larger
    [Count()] than it began with. *)
Theorem MergeNext_Count_drops_by_one h b h' :
  MergeNext h = Ok (b, h') →
  Count (hClusterSet h') = Count (hClusterSet h) - (if b then 1 else 0)
  ∧ (∀ fuel hf, Cluster_loop fuel h = Some (Ok hf) →
       Count (hClusterSet hf) ≤ Count (hClusterSet h)).
Proof.
  intros Hrun. split.
  - apply MergeNext_distMap_Count. exact Hrun.
  - intros fuel hf. apply Cluster_loop_distMap_Count.
Qed.

End WithEngine.

End DistMapProperties.

(** ** The checker's veto and the score of a pair without items *)

Section EngineClaims.

Context {ClusterItem : Type} `{Countable ClusterItem}.
Context {L K C : Type}.
Context `{LinkageType ClusterItem L} `{ClusterSet ClusterItem C} `{Checker K C}.

Implicit Types h : HClustering L K C.

(** A cluster without items gets the score of a freshly reset accumulator:
    no [Put] is made. *)
Lemma linkage_score_no_items (lt : L) (cs : C) i j :
  EachItem cs i = Ok [] →
  linkage_score lt cs i j = Ok (Get (Reset lt), Reset lt).
Proof. unfold linkage_score. intros ->. reflexivity. Qed.

(** What [dist] computes on a cache miss is one Reset-Put*-Get cycle over the
    item pairs of the two clusters, the items of the first cluster outermost. *)
Lemma linkage_score_cycle (lt : L) (cs : C) i j items
    (pairs : ClusterItem → list (ClusterItem * float)) :
  EachItem cs i = Ok items →
  (∀ a, a ∈ items → ocs_EachItemDistance cs i j a = Ok (pairs a)) →
  linkage_score lt cs i j
  = cycle lt (items ≫= fun a => (fun p => (a, p.1, p.2)) <$> pairs a).
Proof.
  intros Hitems Hpairs. unfold linkage_score, cycle. rewrite Hitems. simpl.
  assert (Hloop : ∀ lt0,
    foldM (fun lt1 a =>
             ps ← ocs_EachItemDistance cs i j a;
             foldM (fun lt2 (p : ClusterItem * float) => Put lt2 a p.1 p.2)
                   lt1 ps) lt0 items
    = observe lt0 (items ≫= fun a => (fun p => (a, p.1, p.2)) <$> pairs a)).
  { clear Hitems. induction items as [|a items IH]; intros lt0.
    - reflexivity.
    - simpl. rewrite (Hpairs a) by set_solver. simpl.
      unfold observe. rewrite foldM_app.
      assert (Hinner : ∀ ps lt1,
        foldM (fun lt2 (p : ClusterItem * float) => Put lt2 a p.1 p.2) lt1 ps
        = foldM (fun lt2 (o : ClusterItem * ClusterItem * float) =>
                   Put lt2 o.1.1 o.1.2 o.2) lt1
            ((fun p => (a, p.1, p.2)) <$> ps)).
      { induction ps as [|p ps IHp]; intros lt1; simpl; [reflexivity|].
        destruct (Put lt1 a p.1 p.2); simpl; [apply IHp|reflexivity]. }
      rewrite Hinner.
      destruct (foldM _ lt0 ((fun p => (a, p.1, p.2)) <$> pairs a));
        simpl; [|reflexivity].
      apply IH. intros a' Ha'. apply Hpairs. set_solver. }
  rewrite Hloop. reflexivity.
Qed.

(** C7: when the best-pair search of a [MergeNext] attempt ends on the pair
    (c1, c2) and the checker answers false for it, [MergeNext] returns false
    and the data source is the one the attempt started from (no [Merge] was
    made); the loop of [Cluster] then stops at once on that data source,
    whatever fuel is left.  At the first attempt of a run this is the data
    source the caller passed in. *)
Theorem checker_veto_stops_without_merge h bestScore c1 c2 h1 :
  best_pair (prepare h) = Ok (bestScore, Some (c1, c2), h1) →
  Check (hChecker h) (hClusterSet h) c1 c2 bestScore = false →
  MergeNext h = Ok (false, h1)
  ∧ hClusterSet h1 = hClusterSet h
  ∧ (∀ fuel, ∃ hf, Cluster_loop (S fuel) h = Some (Ok hf)
                   ∧ hClusterSet hf = hClusterSet h).
Proof.
  intros Hbest Hveto.
  pose proof (best_pair_same_setup _ _ _ Hbest) as (Hcs & Hchk & _).
  rewrite prepare_ClusterSet in Hcs. rewrite prepare_Checker in Hchk.
  assert (Hm : MergeNext h = Ok (false, h1)).
  { unfold MergeNext. rewrite Hbest. simpl.
    destruct (bestScore =? MaxFloat64)%float; [reflexivity|].
    rewrite Hchk, Hcs, Hveto. reflexivity. }
  split; [exact Hm|]. split; [exact Hcs|].
  intros fuel. simpl. destruct (1 <? Count (hClusterSet h)).
  - rewrite Hm. eauto.
  - eauto.
Qed.

End EngineClaims.

Section AverageClaims.

Context {ClusterItem : Type} `{Countable ClusterItem}.
Context {C : Type} `{ClusterSet ClusterItem C}.

(** C10: for the average accumulator, weighted or not, [Get] right after
    [Reset] is 0.0 (so is the score [dist] computes for a pair whose first
    cluster has no item).  The best-pair search takes that score: it is below
    the initial [MaxFloat64], it replaces every best score that is positive,
    and it is not the [MaxFloat64] that [MergeNext] rejects. *)
Theorem avgLinkage_empty_score_is_selected (c : avgLinkage ClusterItem) :
  avgLinkage_Get (avgLinkage_Reset c) = 0%float
  ∧ (∀ (cs : C) i j, EachItem cs i = Ok [] →
       returned (linkage_score c cs i j) = Some 0%float)
  ∧ (∀ c1 c2, consider (MaxFloat64, None) c1 c2
                (avgLinkage_Get (avgLinkage_Reset c))
              = (0%float, Some (c1, c2)))
  ∧ (∀ best c1 c2, (0 <? best.1)%float = true →
       consider best c1 c2 (avgLinkage_Get (avgLinkage_Reset c))
       = (0%float, Some (c1, c2)))
  ∧ (0 =? MaxFloat64)%float = false.
Proof.
  assert (Hget : avgLinkage_Get (avgLinkage_Reset c) = 0%float).
  { unfold avgLinkage_Get, avgLinkage_Reset.
    destruct (isWeighted c); reflexivity. }
  split; [exact Hget|]. split; [|split; [|split]].
  - intros cs i j Hi. rewrite (linkage_score_no_items c cs i j Hi).
    simpl. rewrite Hget. reflexivity.
  - intros c1 c2. rewrite Hget. reflexivity.
  - intros best c1 c2 Hpos. rewrite Hget. unfold consider.
    rewrite Hpos. reflexivity.
  - reflexivity.
Qed.

End AverageClaims.

(** ** Runs on the data of the documentation *)

Section Coefficients.

Context {ClusterItem : Type} `{Countable ClusterItem}.
Context {L K C : Type}.
Context `{LinkageType ClusterItem L} `{ClusterSet ClusterItem C} `{Checker K C}.

(** [MergeNext] asks the strategy for its coefficients only while it holds
    no slice of length 4; it never writes [lwCache] anywhere else. *)
Lemma MergeNext_lwCache (h : HClustering L K C) b h' :
  MergeNext h = Ok (b, h') → lwCache h' = lwCache (prepare h).
Proof.
  unfold MergeNext. intros Hrun.
  bind_inv Hrun. destruct a as [[bestScore bestPair] h1]. simpl in Hrun.
  apply best_pair_same_setup in Ha. destruct Ha as (_ & _ & Hlw & _).
  destruct bestPair as [[c1 c2]|].
  - destruct (bestScore =? MaxFloat64)%float.
    { injection Hrun as <- <-. exact Hlw. }
    destruct (negb _).
    { injection Hrun as <- <-. exact Hlw. }
    destruct (distCache h1).
    + bind_inv Hrun. injection Hrun as <- <-.
      apply mergeAndUpdateAll_merges_once in Ha.
      destruct Ha as (cs & r & _ & _ & _ & Hlw'). congruence.
    + bind_inv Hrun. destruct a as [cs r]. simpl in Hrun.
      injection Hrun as <- <-. exact Hlw.
  - injection Hrun as <- <-. exact Hlw.
Qed.

Lemma MergeNext_lwCache_frozen (h : HClustering L K C) b h' :
  length (lwCache h) = 4%nat → MergeNext h = Ok (b, h') →
  lwCache h' = lwCache h.
Proof.
  intros Hlen Hrun. rewrite (MergeNext_lwCache _ _ _ Hrun).
  unfold prepare. destruct (decide _) as [Hn|Hn]; [contradiction|reflexivity].
Qed.

End Coefficients.

Section AverageCoefficients.

Context {ClusterItem : Type} `{Countable ClusterItem}.
Context {K C : Type} `{ClusterSet ClusterItem C} `{Checker K C}.

(** Whatever the data source and the checker: the first [MergeNext] of a run
    with [AverageLinkage()] leaves NaN, NaN, 0, 0 as coefficients, and no
    later [MergeNext] changes a slice of length 4. *)
Lemma upgma_first_MergeNext_lwCache (c : C) (chk : K) b h' :
  MergeNext (engine c chk (AverageLinkage ClusterItem)) = Ok (b, h') →
  lwCache h' = [nan; nan; 0; 0]%float.
Proof.
  intros Hrun. rewrite (MergeNext_lwCache _ _ _ Hrun). reflexivity.
Qed.

End AverageCoefficients.

(** * Further properties of the engine and of the distance map *)

(* [set_solver] clears hypotheses that its own simplification has already
   removed, and says so every time. *)
Set Warnings "-clear-no-such-hyp".

(** ** More on the order of binary64 values *)

Ltac sf_all x :=
  destruct x as [[]|[]| |[] ? ?]; unfold SFleb, SFltb in *; simpl in *;
  try discriminate; try reflexivity.

Lemma SFltb_trans x y z :
  SFltb x y = true → SFltb y z = true → SFltb x z = true.
Proof. intros Hxy Hyz. sf_all x; sf_all y; sf_all z; sf_compare. Qed.

Lemma float_ltb_trans x y z :
  (x <? y)%float = true → (y <? z)%float = true → (x <? z)%float = true.
Proof. rewrite !ltb_spec. apply SFltb_trans. Qed.

Lemma SFltb_not_eqb x y : SFltb x y = true → SFeqb x y = false.
Proof. intros Hxy. unfold SFeqb. sf_all x; sf_all y; sf_compare. Qed.

Lemma float_ltb_not_eqb x y :
  (x <? y)%float = true → (x =? y)%float = false.
Proof. rewrite ltb_spec, FloatAxioms.eqb_spec. apply SFltb_not_eqb. Qed.

Lemma SFltb_leb x y : SFltb x y = true → SFleb x y = true.
Proof. intros Hxy. sf_all x; sf_all y; sf_compare. Qed.

Lemma SFltb_irrefl x : SFltb x x = false.
Proof. sf_all x; sf_compare. Qed.

Lemma float_ltb_irrefl x : (x <? x)%float = false.
Proof. rewrite ltb_spec. apply SFltb_irrefl. Qed.

Lemma float_not_ltb_trans v s b :
  (v <? b)%float = false → (s <? b)%float = true → (v <? s)%float = false.
Proof.
  intros Hvb Hsb. destruct (v <? s)%float eqn:Hvs; [|reflexivity].
  rewrite (float_ltb_trans v s b Hvs Hsb) in Hvb. discriminate.
Qed.

Lemma SFltb_leb_trans x y z :
  SFnonneg x → SFnonneg y → SFnonneg z →
  SFltb x y = true → SFleb y z = true → SFleb x z = true.
Proof.
  intros Hx Hy Hz Hxy Hyz.
  sf_kind x; sf_kind y; sf_kind z; sf_compare.
Qed.

Lemma nonneg_ltb_leb_trans x y z :
  nonneg x → nonneg y → nonneg z →
  (x <? y)%float = true → (y <=? z)%float = true → (x <=? z)%float = true.
Proof.
  rewrite !nonneg_SF, !leb_spec, ltb_spec. apply SFltb_leb_trans.
Qed.

Lemma SFltb_leb_refl x y : SFltb x y = true → SFleb x x = true.
Proof. intros Hxy. sf_all x; sf_all y; sf_compare. Qed.

Lemma SFleb_leb_refl x y : SFleb x y = true → SFleb x x = true.
Proof. intros Hxy. sf_all x; sf_all y; sf_compare. Qed.

Lemma SFleb_total x y :
  SFleb x x = true → SFleb y y = true → SFltb x y = false → SFleb y x = true.
Proof. intros Hx Hy Hxy. sf_all x; sf_all y; sf_compare. Qed.

Lemma SFleb_trans x y z :
  SFleb x y = true → SFleb y z = true → SFleb x z = true.
Proof. intros Hxy Hyz. sf_all x; sf_all y; sf_all z; sf_compare. Qed.

Lemma SFleb_ltb_trans_any x y z :
  SFleb x y = true → SFltb y z = true → SFltb x z = true.
Proof. intros Hxy Hyz. sf_all x; sf_all y; sf_all z; sf_compare. Qed.

(** A score that is not below a best score [s] above the threshold [t] is
    not within the threshold either. *)
Lemma float_above_threshold v s t m :
  (v <? s)%float = false → (s <? m)%float = true →
  (s <=? t)%float = false → (v <=? t)%float = false.
Proof.
  rewrite !ltb_spec, !leb_spec. intros Hvs Hsm Hst.
  destruct (SFleb (Prim2SF v) (Prim2SF t)) eqn:Hvt; [|reflexivity].
  rewrite <- Hst. symmetry.
  apply (SFleb_trans _ (Prim2SF v)); [|exact Hvt].
  apply SFleb_total; [eapply SFleb_leb_refl; eauto|eapply SFltb_leb_refl; eauto|exact Hvs].
Qed.

(** A score that is not below a bound above the threshold [t] is not within
    the threshold. *)
Lemma float_not_below_bound v t m :
  (v <? m)%float = false → (t <? m)%float = true → (v <=? t)%float = false.
Proof.
  rewrite !ltb_spec, !leb_spec. intros Hvm Htm.
  destruct (SFleb (Prim2SF v) (Prim2SF t)) eqn:Hvt; [|reflexivity].
  rewrite (SFleb_ltb_trans_any _ _ _ Hvt Htm) in Hvm. discriminate.
Qed.

(** ** More on folds that may panic *)

Lemma foldM_invariant_in {A S : Type} (P : S → Prop)
    (body : S → A → result S) (xs : list A) :
  (∀ s x s', x ∈ xs → P s → body s x = Ok s' → P s') →
  ∀ s s', P s → foldM body s xs = Ok s' → P s'.
Proof.
  induction xs as [|x xs IH]; intros Hstep s s' Hs Hrun; simpl in Hrun.
  - congruence.
  - destruct (body s x) as [s1|p] eqn:Hb; simpl in Hrun; [|discriminate].
    eapply (IH ltac:(intros; eapply Hstep; eauto; set_solver)); [|exact Hrun].
    eapply Hstep; eauto. set_solver.
Qed.

Lemma foldM_invariant_prefix {A S : Type} (I : list A → S → Prop)
    (body : S → A → result S) (xs : list A) :
  ∀ pre s s',
    (∀ p x q s0 s1, pre ++ xs = p ++ x :: q → I p s0 → body s0 x = Ok s1 →
                    I (p ++ [x]) s1) →
    I pre s → foldM body s xs = Ok s' → I (pre ++ xs) s'.
Proof.
  induction xs as [|x xs IH]; intros pre s s' Hstep Hs Hrun; simpl in Hrun.
  - injection Hrun as <-. rewrite app_nil_r. exact Hs.
  - destruct (body s x) as [s1|p] eqn:Hb; simpl in Hrun; [|discriminate].
    rewrite (app_assoc pre [x] xs) || rewrite cons_middle, app_assoc.
    apply (IH (pre ++ [x]) s1 s'); [|eapply Hstep; eauto|exact Hrun].
    intros p y q s0 s2 Heq. apply (Hstep p y q).
    rewrite <- Heq, <- app_assoc. reflexivity.
Qed.

Lemma foldM_total_prefix {A S : Type} (I : list A → S → Prop)
    (body : S → A → result S) (xs : list A) :
  ∀ pre s,
    (∀ p x q s0, pre ++ xs = p ++ x :: q → I p s0 →
                 ∃ s1, body s0 x = Ok s1 ∧ I (p ++ [x]) s1) →
    I pre s → ∃ s', foldM body s xs = Ok s' ∧ I (pre ++ xs) s'.
Proof.
  induction xs as [|x xs IH]; intros pre s Hstep Hs; simpl.
  - exists s. rewrite app_nil_r. auto.
  - destruct (Hstep pre x xs s eq_refl Hs) as (s1 & Hb & Hs1).
    rewrite Hb. simpl.
    destruct (IH (pre ++ [x]) s1) as (s' & Hrun & Hs'); [|exact Hs1|].
    + intros p y q s0 Heq. apply (Hstep p y q).
      rewrite <- Heq, <- app_assoc. reflexivity.
    + exists s'. rewrite <- app_assoc in Hs'. auto.
Qed.

Lemma foldM_total_in {A S : Type} (P : S → Prop)
    (body : S → A → result S) (xs : list A) s :
  (∀ s0 x, x ∈ xs → P s0 → ∃ s1, body s0 x = Ok s1 ∧ P s1) →
  P s → ∃ s', foldM body s xs = Ok s' ∧ P s'.
Proof.
  intros Hstep Hs.
  destruct (foldM_total_prefix (fun _ => P) body xs [] s) as (s' & Hr & Hs');
    [|exact Hs|eauto].
  intros p x q s0 Heq. apply Hstep. simpl in Heq. rewrite Heq. set_solver.
Qed.

(** ** The score cache, the search and the merge of [MergeNext] *)

Section SearchAndMerge.

Context {ClusterItem : Type} `{Countable ClusterItem}.
Context {L K C : Type}.
Context `{LinkageType ClusterItem L} `{ClusterSet ClusterItem C} `{Checker K C}.

Implicit Types h : HClustering L K C.

(** With a cache, [dist] orders its two indices first. *)
Lemma dist_cached_sym h i j :
  is_Some (distCache h) → dist h i j = dist h j i.
Proof.
  intros [m Hm]. unfold dist. rewrite Hm.
  destruct (Z.ltb_spec j i), (Z.ltb_spec i j); try lia; try reflexivity.
  assert (i = j) by lia. subst. reflexivity.
Qed.

Lemma dist_compute_stores h i j s h' :
  is_Some (distCache h) → dist_compute h i j = Ok (s, h') →
  ∃ m row, distCache h' = Some m ∧ m !! i = Some row ∧ row !! j = Some s.
Proof.
  intros [m Hm]. unfold dist_compute. intros Hrun.
  bind_inv Hrun. destruct a as [s0 lt]. simpl in Hrun. rewrite Hm in Hrun.
  bind_inv Hrun. injection Hrun as <- <-.
  unfold cache_write in Ha0. destruct (m !! i) as [row|]; [|discriminate].
  injection Ha0 as <-. simpl.
  exists (<[i:=<[j:=s0]> row]> m), (<[j:=s0]> row).
  rewrite !lookup_insert_eq. auto.
Qed.

Lemma dist_stores h i j s h' :
  is_Some (distCache h) → dist h i j = Ok (s, h') →
  ∃ m row, distCache h' = Some m ∧ m !! Z.min i j = Some row
           ∧ row !! Z.max i j = Some s.
Proof.
  intros [m Hm] Hrun. unfold dist in Hrun. rewrite Hm in Hrun.
  assert (Hpair : (if j <? i then (j, i) else (i, j)) = (Z.min i j, Z.max i j)).
  { destruct (Z.ltb_spec j i); f_equal; lia. }
  rewrite Hpair in Hrun. clear Hpair.
  destruct (m !! Z.min i j) as [row|] eqn:Hrow.
  - destruct (row !! Z.max i j) as [s0|] eqn:Hs.
    + injection Hrun as <- <-. eauto.
    + eapply dist_compute_stores; eauto.
  - eapply dist_compute_stores; [|exact Hrun]. simpl. eauto.
Qed.

(** X8: [dist] memoizes: once it has answered for a pair, asking again for the
    pair, in either order, gives the same score and changes nothing, neither
    the cache nor the state of the linkage strategy. *)
Theorem dist_memoizes h i j s h' :
  is_Some (distCache h) → dist h i j = Ok (s, h') →
  dist h' i j = Ok (s, h') ∧ dist h' j i = Ok (s, h')
  ∧ cache_read (distCache h') (Z.min i j) (Z.max i j) = s.
Proof.
  intros Hc Hrun.
  destruct (dist_stores h i j s h' Hc Hrun) as (m & row & Hm & Hrow & Hs).
  assert (Hagain : dist h' i j = Ok (s, h')).
  { unfold dist. rewrite Hm.
    assert (Hpair : (if j <? i then (j, i) else (i, j))
                    = (Z.min i j, Z.max i j)).
    { destruct (Z.ltb_spec j i); f_equal; lia. }
    rewrite Hpair, Hrow, Hs. reflexivity. }
  split; [exact Hagain|]. split.
  - rewrite <- dist_cached_sym by (rewrite Hm; eauto). exact Hagain.
  - unfold cache_read. rewrite Hm, Hrow, Hs. reflexivity.
Qed.

(** The best-pair search ends either without a pair, on [MaxFloat64], or on a
    pair whose score is below [MaxFloat64] (so never on NaN). *)
Lemma best_pair_score h s p h' :
  best_pair h = Ok (s, p, h') →
  match p with
  | Some _ => (s <? MaxFloat64)%float = true
  | None => s = MaxFloat64
  end.
Proof.
  unfold best_pair. intros Hrun.
  apply (foldM_invariant
           (fun st : float * option (Z * Z) * HClustering L K C =>
              match st.1.2 with
              | Some _ => (st.1.1 <? MaxFloat64)%float = true
              | None => st.1.1 = MaxFloat64
              end)) in Hrun; [exact Hrun| |reflexivity].
  intros st c1 st' Hst Hin.
  apply (foldM_invariant
           (fun st : float * option (Z * Z) * HClustering L K C =>
              match st.1.2 with
              | Some _ => (st.1.1 <? MaxFloat64)%float = true
              | None => st.1.1 = MaxFloat64
              end)) in Hin; [exact Hin| |exact Hst].
  intros [[b p1] h1] c2 st2 Hst1 Hstep. simpl in *.
  bind_inv Hstep. destruct a as [score h2]. simpl in Hstep.
  injection Hstep as <-. unfold consider. simpl.
  destruct (score <? b)%float eqn:Hlt; simpl; [|exact Hst1].
  destruct p1; [|subst b; exact Hlt].
  eapply float_ltb_trans; eauto.
Qed.

Lemma MergeNext_Checker h b h' :
  MergeNext h = Ok (b, h') → hChecker h' = hChecker h.
Proof.
  unfold MergeNext. intros Hrun.
  bind_inv Hrun. destruct a as [[bestScore bestPair] h1]. simpl in Hrun.
  apply best_pair_same_setup in Ha. destruct Ha as (_ & Hchk & _).
  rewrite prepare_Checker in Hchk.
  destruct bestPair as [[c1 c2]|].
  - destruct (bestScore =? MaxFloat64)%float.
    { injection Hrun as <- <-. exact Hchk. }
    destruct (negb _).
    { injection Hrun as <- <-. exact Hchk. }
    destruct (distCache h1).
    + bind_inv Hrun. injection Hrun as <- <-.
      apply mergeAndUpdateAll_merges_once in Ha.
      destruct Ha as (cs & r & _ & _ & Hchk' & _). congruence.
    + bind_inv Hrun. destruct a as [cs r]. simpl in Hrun.
      injection Hrun as <- <-. exact Hchk.
  - injection Hrun as <- <-. exact Hchk.
Qed.

Lemma MergeNext_true_inv h h' :
  MergeNext h = Ok (true, h') →
  ∃ s c1 c2 h1 r,
    best_pair (prepare h) = Ok (s, Some (c1, c2), h1)
    ∧ (s <? MaxFloat64)%float = true
    ∧ Check (hChecker h) (hClusterSet h) c1 c2 s = true
    ∧ Merge (hClusterSet h) c1 c2 = Ok (hClusterSet h', r).
Proof.
  unfold MergeNext. intros Hrun.
  bind_inv Hrun. destruct a as [[s p] h1]. simpl in Hrun.
  pose proof (best_pair_score _ _ _ _ Ha) as Hs.
  pose proof (best_pair_same_setup _ _ _ Ha) as (Hcs & Hchk & _).
  rewrite prepare_ClusterSet in Hcs. rewrite prepare_Checker in Hchk.
  destruct p as [[c1 c2]|]; [|discriminate].
  destruct (s =? MaxFloat64)%float; [discriminate|].
  destruct (Check (hChecker h1) (hClusterSet h1) c1 c2 s) eqn:Hck;
    [|discriminate]. simpl in Hrun.
  rewrite Hchk, Hcs in Hck.
  destruct (distCache h1).
  - bind_inv Hrun. injection Hrun as <-.
    apply mergeAndUpdateAll_merges_once in Ha0.
    destruct Ha0 as (cs & r & Hm & Hcs' & _). rewrite Hcs in Hm.
    exists s, c1, c2, h1, r. rewrite Hcs'. auto.
  - bind_inv Hrun. destruct a as [cs r]. simpl in Hrun. rewrite Hcs in Ha0.
    injection Hrun as <-. exists s, c1, c2, h1, r. simpl. auto.
Qed.

(** X10: A merge is made only on the pair the search ended on, only when its
    score is below [MaxFloat64], and only after the checker has agreed to it
    on the data source as it was before the merge. *)
Theorem MergeNext_merges_with_consent h h' :
  MergeNext h = Ok (true, h') →
  ∃ s c1 c2 h1 r,
    best_pair (prepare h) = Ok (s, Some (c1, c2), h1)
    ∧ (s <? MaxFloat64)%float = true
    ∧ Check (hChecker h) (hClusterSet h) c1 c2 s = true
    ∧ Merge (hClusterSet h) c1 c2 = Ok (hClusterSet h', r).
Proof. exact (MergeNext_true_inv h h'). Qed.

End SearchAndMerge.

(** ** The distance-map data source: [Merge], construction, enumeration *)

Lemma index_Ok_lookup {A : Type} (s : list A) (i : Z) (a : A) :
  index s i = Ok a ↔ 0 ≤ i ∧ s !! Z.to_nat i = Some a.
Proof.
  unfold index. destruct (Z.ltb_spec i 0).
  - split; [discriminate|lia].
  - destruct (s !! Z.to_nat i); split; try discriminate; try tauto.
    + intros [= ->]. auto.
    + intros [_ [= ->]]. reflexivity.
    + intros [_ [=]].
Qed.

Lemma index_lookup {A : Type} (s : list A) (i : Z) (a : A) :
  0 ≤ i → s !! Z.to_nat i = Some a → index s i = Ok a.
Proof. intros. apply index_Ok_lookup. auto. Qed.

Section DistMapMerge.

Context {ClusterItem : Type} `{Countable ClusterItem}.

Implicit Types d : distMapClusterSet ClusterItem.

Lemma distMap_Merge_distinct d i j (clo chi cx : list ClusterItem) :
  i ≠ j → 0 ≤ Z.min i j →
  clusters d !! Z.to_nat (Z.min i j) = Some clo →
  clusters d !! Z.to_nat (Z.max i j) = Some chi →
  clusters d !! Z.to_nat (distMap_Count d - 1) = Some cx →
  distMap_Merge d i j
  = Ok ({| data := data d;
           clusters :=
             take (Z.to_nat (distMap_Count d - 1))
               (<[Z.to_nat (Z.min i j) := (clo ++ chi)%list]>
                  (<[Z.to_nat (Z.max i j) := cx]> (clusters d))) |},
        (Z.min i j, distMap_Count d - 1)).
Proof.
  intros Hne Hlo Hclo Hchi Hcx. unfold distMap_Merge, distMap_Count in *.
  assert (Hpair : (if j <? i then (j, i) else (i, j)) = (Z.min i j, Z.max i j)).
  { destruct (Z.ltb_spec j i); f_equal; lia. }
  rewrite Hpair. clear Hpair.
  assert (Hlt : Z.min i j < Z.max i j) by lia.
  remember (Z.min i j) as lo eqn:Elo. remember (Z.max i j) as hi eqn:Ehi.
  clear Elo Ehi Hne.
  remember (Z.of_nat (length (clusters d)) - 1) as x eqn:Ex.
  pose proof (lookup_lt_Some _ _ _ Hchi) as Hhi.
  destruct (Z.ltb_spec hi x) as [Hhx|Hhx].
  - rewrite (index_lookup _ hi chi ltac:(lia) Hchi).
    rewrite (index_lookup _ x cx ltac:(lia) Hcx). simpl.
    rewrite (index_lookup _ lo clo) by
      (try lia; rewrite !list_lookup_insert_ne by lia; exact Hclo).
    rewrite (index_lookup _ x chi) by
      (try lia; rewrite list_lookup_insert_ne by lia;
       apply list_lookup_insert_eq; lia).
    simpl. do 3 f_equal.
    rewrite (list_insert_insert_ne _ (Z.to_nat hi) (Z.to_nat x)) by lia.
    rewrite (list_insert_insert_ne _ (Z.to_nat lo) (Z.to_nat x)) by lia.
    rewrite take_insert_ge by lia. reflexivity.
  - assert (hi = x) by lia. subst hi. simpl.
    rewrite (index_lookup _ lo clo) by (try lia; exact Hclo).
    rewrite (index_lookup _ _ chi) by (try lia; exact Hchi). simpl.
    assert (cx = chi) by congruence.
    subst cx. rewrite (list_insert_id _ _ _ Hchi). reflexivity.
Qed.


Lemma distMap_Merge_Ok_iff d i j :
  (∃ d' r, distMap_Merge d i j = Ok (d', r))
  ↔ (0 ≤ i < distMap_Count d ∧ 0 ≤ j < distMap_Count d).
Proof.
  split.
  - unfold distMap_Merge, distMap_Count. intros (d' & r & Hrun).
    assert (Hpair : (if j <? i then (j, i) else (i, j))
                    = (Z.min i j, Z.max i j)).
    { destruct (Z.ltb_spec j i); f_equal; lia. }
    rewrite Hpair in Hrun. clear Hpair.
    bind_inv Hrun. destruct a as [cl j1]. simpl in Hrun.
    bind_inv Hrun. bind_inv Hrun.
    apply index_Ok_range in Ha0, Ha1.
    destruct (Z.max i j <? Z.of_nat (length (clusters d)) - 1) eqn:Hlt.
    + bind_inv Ha. bind_inv Ha. injection Ha as <- <-.
      apply index_Ok_range in Ha2. rewrite !length_insert in *. lia.
    + injection Ha as <- <-. lia.
  - unfold distMap_Count. intros [Hi Hj].
    destruct (lookup_lt_is_Some_2 (clusters d) (Z.to_nat i)) as [ci Hci];
      [lia|].
    destruct (lookup_lt_is_Some_2 (clusters d) (Z.to_nat j)) as [cj Hcj];
      [lia|].
    destruct (lookup_lt_is_Some_2 (clusters d)
                (Z.to_nat (Z.of_nat (length (clusters d)) - 1)))
      as [cx Hcx]; [lia|].
    destruct (decide (i = j)) as [->|Hne].
    + unfold distMap_Merge. rewrite Z.ltb_irrefl.
      destruct (Z.ltb_spec j (Z.of_nat (length (clusters d)) - 1)).
      * rewrite (index_lookup _ j cj) by (try lia; exact Hcj).
        rewrite (index_lookup _ _ cx) by (try lia; exact Hcx). simpl.
        rewrite (index_lookup _ j cx) by
          (try lia; apply list_lookup_insert_eq; rewrite length_insert; lia).
        rewrite (index_lookup _ _ cj) by
          (try lia; rewrite list_lookup_insert_ne by lia;
           apply list_lookup_insert_eq; lia).
        simpl. eauto.
      * simpl. rewrite !(index_lookup _ j cj) by (try lia; exact Hcj).
        simpl. eauto.
    + destruct (Z.min_spec i j) as [[? Emin]|[? Emin]];
      destruct (Z.max_spec i j) as [[? Emax]|[? Emax]]; try lia.
      * eexists _, _.
        apply (distMap_Merge_distinct d i j ci cj cx); unfold distMap_Count;
          rewrite ?Emin, ?Emax; auto; lia.
      * eexists _, _.
        apply (distMap_Merge_distinct d i j cj ci cx); unfold distMap_Count;
          rewrite ?Emin, ?Emax; auto; lia.
Qed.


Lemma distMap_Merge_Ok_distinct d i j d' r :
  i ≠ j → distMap_Merge d i j = Ok (d', r) →
  ∃ clo chi cx : list ClusterItem,
    clusters d !! Z.to_nat (Z.min i j) = Some clo
    ∧ clusters d !! Z.to_nat (Z.max i j) = Some chi
    ∧ clusters d !! Z.to_nat (distMap_Count d - 1) = Some cx
    ∧ 0 ≤ Z.min i j ∧ Z.max i j < distMap_Count d
    ∧ d' = {| data := data d;
              clusters :=
                take (Z.to_nat (distMap_Count d - 1))
                  (<[Z.to_nat (Z.min i j) := (clo ++ chi)%list]>
                     (<[Z.to_nat (Z.max i j) := cx]> (clusters d))) |}
    ∧ r = (Z.min i j, distMap_Count d - 1).
Proof.
  intros Hne Hrun.
  destruct (proj1 (distMap_Merge_Ok_iff d i j)) as [Hi Hj]; [eauto|].
  unfold distMap_Count in *.
  destruct (lookup_lt_is_Some_2 (clusters d) (Z.to_nat (Z.min i j)))
    as [clo Hclo]; [lia|].
  destruct (lookup_lt_is_Some_2 (clusters d) (Z.to_nat (Z.max i j)))
    as [chi Hchi]; [lia|].
  destruct (lookup_lt_is_Some_2 (clusters d)
              (Z.to_nat (Z.of_nat (length (clusters d)) - 1)))
    as [cx Hcx]; [lia|].
  exists clo, chi, cx.
  rewrite (distMap_Merge_distinct d i j clo chi cx) in Hrun by (auto; lia).
  injection Hrun as <- <-. repeat split; auto; lia.
Qed.

(** X4: Where the clusters are after [Merge] of two different clusters: the
    lower index holds the items of the lower cluster followed by those of the
    higher one, the higher index holds the cluster that was last (unless the
    higher cluster was the last, whose index is gone), every other index keeps
    its cluster. *)
Theorem distMap_Merge_relocates_last d i j d' r k :
  i ≠ j → distMap_Merge d i j = Ok (d', r) →
  0 ≤ k < distMap_Count d - 1 →
  clusters d' !! Z.to_nat k =
    (if decide (k = Z.min i j) then
       clo ← clusters d !! Z.to_nat (Z.min i j);
       chi ← clusters d !! Z.to_nat (Z.max i j);
       Some (clo ++ chi)%list
     else if decide (k = Z.max i j) then
       clusters d !! Z.to_nat (distMap_Count d - 1)
     else clusters d !! Z.to_nat k).
Proof.
  intros Hne Hrun Hk.
  destruct (distMap_Merge_Ok_distinct d i j d' r Hne Hrun)
    as (clo & chi & cx & Hclo & Hchi & Hcx & Hlo & Hhi & -> & ->).
  unfold distMap_Count in *. simpl.
  rewrite lookup_take_lt by lia. rewrite Hclo, Hchi. simpl.
  destruct (decide (k = Z.min i j)) as [->|Hk1].
  - apply list_lookup_insert_eq. rewrite length_insert. lia.
  - rewrite list_lookup_insert_ne by lia.
    destruct (decide (k = Z.max i j)) as [->|Hk2].
    + rewrite Hcx. apply list_lookup_insert_eq. lia.
    + rewrite list_lookup_insert_ne by lia. reflexivity.
Qed.

Lemma concat_Permutation {A : Type} (l1 l2 : list (list A)) :
  l1 ≡ₚ l2 → concat l1 ≡ₚ concat l2.
Proof.
  induction 1 as [|x l1 l2 _ IH|x y l|l1 l2 l3 _ IH1 _ IH2]; simpl.
  - reflexivity.
  - rewrite IH. reflexivity.
  - rewrite !app_assoc. apply Permutation_app_tail, Permutation_app_comm.
  - etransitivity; eauto.
Qed.

Lemma distMap_Merge_Permutation d i j d' r :
  i ≠ j → distMap_Merge d i j = Ok (d', r) →
  concat (clusters d') ≡ₚ concat (clusters d).
Proof.
  intros Hne Hrun.
  destruct (distMap_Merge_Ok_distinct d i j d' r Hne Hrun)
    as (clo & chi & cx & Hclo & Hchi & Hcx & Hlo & Hhi & -> & ->).
  unfold distMap_Count in *. simpl.
  remember (Z.to_nat (Z.min i j)) as lo eqn:Elo.
  remember (Z.to_nat (Z.max i j)) as hi eqn:Ehi.
  remember (Z.to_nat (Z.of_nat (length (clusters d)) - 1)) as x eqn:Ex.
  assert (Hlohi : (lo < hi)%nat) by lia.
  assert (Hhix : (hi ≤ x)%nat) by lia.
  assert (Hx : length (clusters d) = S x) by lia.
  clear Elo Ehi Ex Hlo Hhi Hne.
  set (sw := <[hi:=cx]> (clusters d)).
  (* the swapped list is the clusters below [x] followed by the higher one *)
  assert (Hsw : <[x:=chi]> sw ≡ₚ clusters d).
  { unfold sw. apply Permutation_insert_swap; assumption. }
  assert (Hlen : length sw = S x) by (unfold sw; rewrite length_insert; lia).
  assert (Hsplit : <[x:=chi]> sw = take x sw ++ [chi]).
  { rewrite insert_take_drop by lia. f_equal.
    rewrite drop_ge by lia. reflexivity. }
  assert (Hlosw : take x sw !! lo = Some clo).
  { rewrite lookup_take_lt by lia. unfold sw.
    rewrite list_lookup_insert_ne by lia. exact Hclo. }
  rewrite take_insert_lt by lia.
  rewrite <- Hsw, Hsplit, concat_app. simpl. rewrite app_nil_r.
  rewrite (concat_Permutation _ _ (delete_Permutation _ _ _ Hlosw)).
  assert (Hins : <[lo:=(clo ++ chi)%list]> (take x sw)
                 ≡ₚ (clo ++ chi)%list :: delete lo (take x sw)).
  { rewrite insert_take_drop by (apply lookup_lt_Some in Hlosw; lia).
    rewrite delete_take_drop. symmetry. apply Permutation_middle. }
  rewrite (concat_Permutation _ _ Hins). simpl.
  rewrite <- !app_assoc. apply Permutation_app_head.
  apply Permutation_app_comm.
Qed.

Lemma distMap_Merge_reports d i j d' r :
  distMap_Merge d i j = Ok (d', r) →
  r = (Z.min i j, distMap_Count d - 1) ∧ data d' = data d.
Proof.
  unfold distMap_Merge, distMap_Count. intros Hrun.
  assert (Hpair : (if j <? i then (j, i) else (i, j))
                  = (Z.min i j, Z.max i j)).
  { destruct (Z.ltb_spec j i); f_equal; lia. }
  rewrite Hpair in Hrun. clear Hpair.
  bind_inv Hrun. destruct a as [cl j1]. simpl in Hrun.
  bind_inv Hrun. bind_inv Hrun. injection Hrun as <- <-. auto.
Qed.

(** X3: [Merge] returns exactly when both indices name live clusters; it then
    reports the lower index as kept and the last index as the one given up,
    and leaves the distance map alone. *)
Theorem distMap_Merge_returns_iff_live d i j :
  ((∃ d' r, distMap_Merge d i j = Ok (d', r))
   ↔ (0 ≤ i < distMap_Count d ∧ 0 ≤ j < distMap_Count d))
  ∧ ∀ d' r, distMap_Merge d i j = Ok (d', r) →
            r = (Z.min i j, distMap_Count d - 1)
            ∧ data d' = data d
            ∧ distMap_Count d' = distMap_Count d - 1.
Proof.
  split; [exact (distMap_Merge_Ok_iff d i j)|].
  intros d' r Hrun.
  destruct (distMap_Merge_reports d i j d' r Hrun) as [Hr Hd].
  split; [exact Hr|]. split; [exact Hd|].
  exact (distMap_Merge_Count d i j d' r Hrun).
Qed.

(** X5: [Merge] of two different clusters neither loses nor repeats an item:
    the items of all clusters together are the same before and after. *)
Theorem distMap_Merge_keeps_items d i j d' r :
  i ≠ j → distMap_Merge d i j = Ok (d', r) →
  concat (clusters d') ≡ₚ concat (clusters d).
Proof. exact (distMap_Merge_Permutation d i j d' r). Qed.

End DistMapMerge.

Section DistMapEnumeration.

Context {ClusterItem : Type} `{Countable ClusterItem}.



Implicit Types d : distMapClusterSet ClusterItem.

Lemma distMap_EachCluster_seqZ d (start : Z) :
  distMap_EachCluster d start
  = seqZ (start + 1) (distMap_Count d - (start + 1)).
Proof.
  unfold distMap_EachCluster, distMap_Count.
  destruct (Z.leb_spec (Z.of_nat (length (clusters d))) (start + 1));
    [|reflexivity].
  symmetry. apply seqZ_nil. lia.
Qed.

Lemma distMap_EachCluster_elem d (start c : Z) :
  c ∈ distMap_EachCluster d start ↔ start < c < distMap_Count d.
Proof. rewrite distMap_EachCluster_seqZ, elem_of_seqZ. lia. Qed.


End DistMapEnumeration.

(** ** Runs of the engine on the distance map *)

Section DistMapRuns.

Context {ClusterItem : Type} `{Countable ClusterItem}.
Context {L K : Type}.
Context `{LinkageType ClusterItem L}.
Context `{Checker K (distMapClusterSet ClusterItem)}.

Implicit Types h : HClustering L K (distMapClusterSet ClusterItem).

(** On the distance map the search only ever ends on two different live
    clusters, the lower index first. *)
Lemma best_pair_distMap_indices h s c1 c2 h' :
  best_pair h = Ok (s, Some (c1, c2), h') →
  0 ≤ c1 < c2 ∧ c2 < Count (hClusterSet h).
Proof.
  unfold best_pair. intros Hrun.
  set (P := fun st : float * option (Z * Z)
                     * HClustering L K (distMapClusterSet ClusterItem) =>
              hClusterSet st.2 = hClusterSet h
              ∧ match st.1.2 with
                | Some (a, b) => 0 ≤ a < b ∧ b < Count (hClusterSet h)
                | None => True
                end).
  apply (foldM_invariant_in P) in Hrun;
    [exact (proj2 Hrun)| |split; [reflexivity|exact I]].
  intros st c1' st' Hc1 Hst Hin.
  apply distMap_EachCluster_elem in Hc1.
  pose proof (proj1 Hst) as Hcs0.
  apply (foldM_invariant_in P) in Hin; [exact Hin| |exact Hst].
  intros [[b p1] h1] c2' st2 Hc2 [Hcs Hp] Hstep. simpl in *.
  rewrite Hcs0 in Hc2. apply distMap_EachCluster_elem in Hc2.
  bind_inv Hstep. destruct a as [score h2]. simpl in Hstep.
  injection Hstep as <-. unfold P. simpl.
  apply dist_same_setup in Ha. destruct Ha as (Hcs2 & _).
  split; [congruence|].
  unfold consider. simpl. destruct (score <? b)%float; simpl; [|exact Hp].
  lia.
Qed.


Lemma MergeNext_distMap_merged_pair h h' :
  MergeNext h = Ok (true, h') →
  ∃ c1 c2 r, 0 ≤ c1 < c2 ∧ c2 < Count (hClusterSet h)
             ∧ distMap_Merge (hClusterSet h) c1 c2 = Ok (hClusterSet h', r).
Proof.
  intros Hrun.
  destruct (MergeNext_true_inv h h' Hrun)
    as (s & c1 & c2 & h1 & r & Hbest & _ & _ & Hm).
  apply best_pair_distMap_indices in Hbest.
  rewrite prepare_ClusterSet in Hbest. destruct Hbest as [Hlt Hc2].
  exists c1, c2, r. split; [exact Hlt|]. split; [exact Hc2|exact Hm].
Qed.

(** X12: A run of [Cluster] on the distance map regroups the items and does
    nothing else to them: the items of the final clusters are the items of the
    initial clusters, none lost and none repeated, and the distance map is the
    one passed in. *)
Theorem Cluster_distMap_keeps_items fuel h hf :
  Cluster_loop fuel h = Some (Ok hf) →
  concat (clusters (hClusterSet hf)) ≡ₚ concat (clusters (hClusterSet h))
  ∧ data (hClusterSet hf) = data (hClusterSet h).
Proof.
  assert (Hstep : ∀ h0 b h1, MergeNext h0 = Ok (b, h1) →
            concat (clusters (hClusterSet h1))
              ≡ₚ concat (clusters (hClusterSet h0))
            ∧ data (hClusterSet h1) = data (hClusterSet h0)).
  { intros h0 [] h1 Hm.
    - destruct (MergeNext_distMap_merged_pair h0 h1 Hm)
        as (c1 & c2 & r & Hlt & _ & Hmerge).
      split.
      + eapply distMap_Merge_Permutation; [|exact Hmerge]. lia.
      + destruct (distMap_Merge_Ok_distinct _ c1 c2 _ _ ltac:(lia) Hmerge)
          as (? & ? & ? & _ & _ & _ & _ & _ & -> & _). reflexivity.
    - apply MergeNext_ClusterSet in Hm. rewrite Hm. auto. }
  revert h. induction fuel as [|fuel IH]; intros h; simpl.
  - destruct (1 <? distMap_Count (hClusterSet h)); [discriminate|].
    intros [= <-]. auto.
  - destruct (1 <? distMap_Count (hClusterSet h)); [|intros [= <-]; auto].
    destruct (MergeNext h) as [[[] h1]|p] eqn:Hm; try discriminate.
    + intros Hrun. apply IH in Hrun. apply Hstep in Hm.
      destruct Hrun as [Hp Hd], Hm as [Hp' Hd']. split; [|congruence].
      etransitivity; eauto.
    + intros [= <-]. eapply Hstep; eauto.
Qed.

(** X11: With fewer than two clusters there is nothing to merge: [MergeNext]
    returns false having only set up its coefficients and cache, and [Cluster]
    returns at once without calling [MergeNext] or the linkage strategy at
    all, whatever the fuel. *)
Theorem few_clusters_nothing_to_merge h :
  Count (hClusterSet h) ≤ 1 →
  MergeNext h = Ok (false, prepare h)
  ∧ ∀ fuel, Cluster_loop fuel h = Some (Ok h).
Proof.
  intros Hcount. split.
  - unfold MergeNext, best_pair. rewrite prepare_ClusterSet.
    simpl in *. rewrite distMap_EachCluster_seqZ.
    unfold distMap_Count in *.
    destruct (clusters (hClusterSet h)) as [|c [|c' cl]] eqn:Hcl;
      simpl in *; try lia.
    + reflexivity.
    + change (seqZ 0 1) with [0]. simpl. rewrite prepare_ClusterSet.
      rewrite distMap_EachCluster_seqZ. unfold distMap_Count. rewrite Hcl.
      reflexivity.
  - intros fuel. destruct fuel; simpl in *;
      destruct (Z.ltb_spec 1 (distMap_Count (hClusterSet h)));
      try lia; reflexivity.
Qed.

End DistMapRuns.

Section MaxClustersFloor.

Context {ClusterItem : Type} `{Countable ClusterItem}.
Context {L : Type} `{LinkageType ClusterItem L}.

Implicit Types h : HClustering L limitClustersCount
                     (distMapClusterSet ClusterItem).

(** X13: [MaxClusters(t)] is a floor: a run on the distance map that starts
    with at least [t] clusters never ends with fewer than [t], and a run that
    starts with [t] clusters or fewer makes no merge at all. *)
Theorem MaxClusters_is_a_floor fuel h hf :
  Cluster_loop fuel h = Some (Ok hf) →
  (limit_val (hChecker h) ≤ Count (hClusterSet h) →
   limit_val (hChecker h) ≤ Count (hClusterSet hf))
  ∧ (Count (hClusterSet h) ≤ limit_val (hChecker h) →
     hClusterSet hf = hClusterSet h).
Proof.
  assert (Hstep : ∀ h0 h1, MergeNext h0 = Ok (true, h1) →
            limit_val (hChecker h0) < Count (hClusterSet h0)
            ∧ Count (hClusterSet h1) = Count (hClusterSet h0) - 1
            ∧ hChecker h1 = hChecker h0).
  { intros h0 h1 Hm.
    destruct (MergeNext_true_inv h0 h1 Hm)
      as (s & c1 & c2 & h2 & r & _ & _ & Hck & _).
    simpl in Hck. apply Z.ltb_lt in Hck.
    split; [exact Hck|]. split.
    - apply MergeNext_distMap_Count in Hm. simpl in *. lia.
    - eapply MergeNext_Checker; eauto. }
  revert h. induction fuel as [|fuel IH]; intros h; simpl.
  - destruct (1 <? distMap_Count (hClusterSet h)); [discriminate|].
    intros [= <-]. auto.
  - destruct (1 <? distMap_Count (hClusterSet h)); [|intros [= <-]; auto].
    destruct (MergeNext h) as [[[] h1]|p] eqn:Hm; try discriminate.
    + intros Hrun. apply IH in Hrun. apply Hstep in Hm.
      destruct Hm as (Hlt & Hc & Hk). rewrite Hk, Hc in Hrun. simpl in *.
      destruct Hrun as [Hr1 Hr2]. split; intros; [apply Hr1|]; lia.
    + intros [= <-]. apply MergeNext_ClusterSet in Hm. rewrite Hm. auto.
Qed.

End MaxClustersFloor.

(** ** Single linkage and the coefficients of average linkage *)

Section SingleAndAverage.

Context {ClusterItem : Type} `{Countable ClusterItem}.

Implicit Types obs : list (ClusterItem * ClusterItem * float).

Lemma minLinkage_Put_holds_min seen (c : minLinkage) (a b : ClusterItem) d :
  Forall nonneg seen → nonneg d → holds_min seen c →
  ∃ c', minLinkage_Put c a b d = Ok c' ∧ holds_min (seen ++ [d]) c'.
Proof.
  intros Hseen Hd (Hm & Hin & Hle). unfold minLinkage_Put.
  rewrite (nonneg_not_negative _ Hm), orb_false_r.
  destruct (d <? minDist c)%float eqn:Hlt; eexists; split; try reflexivity.
  - split; [exact Hd|]. split; [set_solver|]. simpl.
    apply Forall_app; split.
    + rewrite Forall_forall in *. intros y Hy.
      apply nonneg_ltb_leb_trans with (minDist c); auto.
    + constructor; [|constructor]. apply nonneg_leb_refl; exact Hd.
  - split; [exact Hm|]. split; [set_solver|].
    apply Forall_app; split; [exact Hle|].
    constructor; [|constructor]. apply nonneg_leb_total; auto.
Qed.

Lemma minLinkage_observe_holds_min obs seen (c : minLinkage) :
  Forall nonneg seen → Forall (fun o => nonneg o.2) obs → holds_min seen c →
  ∃ c', observe c obs = Ok c' ∧ holds_min (seen ++ obs.*2) c'.
Proof.
  revert seen c. induction obs as [|o obs IH]; intros seen c Hseen Hobs Hc.
  - exists c. rewrite app_nil_r. split; [reflexivity|exact Hc].
  - inversion Hobs as [|? ? Ho Hrest]; subst.
    destruct (minLinkage_Put_holds_min seen c o.1.1 o.1.2 o.2 Hseen Ho Hc)
      as (c1 & Hput & Hc1).
    destruct (IH (seen ++ [o.2]) c1) as (c' & Hrun & Hc'); auto.
    { apply Forall_app; split; [exact Hseen|]. constructor; auto. }
    exists c'. split.
    + rewrite observe_cons. simpl. rewrite Hput. exact Hrun.
    + rewrite <- app_assoc in Hc'. exact Hc'.
Qed.

Lemma minLinkage_Put_after_Reset (c : minLinkage) (a b : ClusterItem) d :
  minLinkage_Put (minLinkage_Reset c) a b d = Ok {| minDist := d |}.
Proof.
  unfold minLinkage_Put, minLinkage_Reset. cbn [minDist].
  replace ((-1 <? 0)%float) with true by reflexivity.
  rewrite orb_true_r. reflexivity.
Qed.

(** X6: Single linkage: [Reset] followed by [Put] calls whose distances are
    all non-negative leaves in [Get] one of the observed distances that none
    of them is below, their minimum. *)
Theorem minLinkage_Get_is_min_of_nonneg (c : minLinkage) o obs :
  Forall (fun o' => nonneg o'.2) (o :: obs) →
  ∃ c', observe (minLinkage_Reset c) (o :: obs) = Ok c'
        ∧ minLinkage_Get c' ∈ (o :: obs).*2
        ∧ Forall (fun o' => (minLinkage_Get c' <=? o'.2)%float = true)
                 (o :: obs).
Proof.
  intros Hobs. inversion Hobs as [|? ? Ho Hrest]; subst.
  rewrite observe_cons. simpl. rewrite minLinkage_Put_after_Reset. simpl.
  destruct (minLinkage_observe_holds_min obs [o.2] {| minDist := o.2 |})
    as (c' & Hrun & Hn & Hin & Hle); auto.
  { split; [exact Ho|]. split; [set_solver|].
    constructor; [|constructor]. apply nonneg_leb_refl; exact Ho. }
  exists c'. split; [exact Hrun|]. split.
  - exact Hin.
  - rewrite Forall_forall in Hle. rewrite Forall_forall. intros o' Ho'.
    apply Hle. change ([o.2] ++ obs.*2) with ((o :: obs).*2).
    apply list_elem_of_fmap. exists o'. split; [reflexivity|exact Ho'].
Qed.

(** What the average accumulator holds after a stream of observations. *)
Lemma avgLinkage_observe_sums obs (c : avgLinkage ClusterItem) :
  (isWeighted c = false → is_Some (leftCounts c) ∧ is_Some (rightCounts c)) →
  ∃ c', observe c obs = Ok c'
    ∧ avgDist c' = fold_left (fun s o => (s + o.2)%float) obs (avgDist c)
    ∧ totalPairs c'
      = fold_left (fun n (_ : ClusterItem * ClusterItem * float) =>
                     (n + 1)%float) obs (totalPairs c)
    ∧ isWeighted c' = isWeighted c
    ∧ (if isWeighted c
       then leftCounts c' = leftCounts c ∧ rightCounts c' = rightCounts c
       else leftCounts c'
            = (fun s => list_to_set obs.*1.*1 ∪ s) <$> leftCounts c
            ∧ rightCounts c'
              = (fun s => list_to_set obs.*1.*2 ∪ s) <$> rightCounts c).
Proof.
  revert c. induction obs as [|o obs IH]; intros c Hsets.
  - exists c. split; [reflexivity|]. repeat split.
    destruct (isWeighted c) eqn:Hw; [auto|].
    destruct Hsets as [[l ->] [r ->]]; [reflexivity|]. simpl.
    split; f_equal; set_solver.
  - rewrite observe_cons. simpl. unfold avgLinkage_Put.
    destruct (isWeighted c) eqn:Hw; simpl.
    + destruct (IH {| avgDist := avgDist c + o.2;
                      totalPairs := totalPairs c + 1;
                      isWeighted := true;
                      leftCounts := leftCounts c;
                      rightCounts := rightCounts c |})
        as (c' & Hrun & Ha & Ht & Hw' & Hs); [discriminate|].
      exists c'. simpl in *. auto.
    + destruct Hsets as [[l Hl] [r Hr]]; [reflexivity|].
      rewrite Hl, Hr. simpl.
      destruct (IH {| avgDist := avgDist c + o.2;
                      totalPairs := totalPairs c + 1;
                      isWeighted := false;
                      leftCounts := Some ({[o.1.1]} ∪ l);
                      rightCounts := Some ({[o.1.2]} ∪ r) |})
        as (c' & Hrun & Ha & Ht & Hw' & Hs1 & Hs2); [simpl; eauto|].
      exists c'. simpl in *. split; [exact Hrun|].
      split; [exact Ha|]. split; [exact Ht|]. split; [exact Hw'|].
      rewrite Hs1, Hs2. split; f_equal; set_solver.
Qed.


(** What [dist] streams into the linkage strategy for two clusters of the
    distance map: every item of the first with every item of the second. *)
Lemma distMap_linkage_score_cycle {L : Type} `{LinkageType ClusterItem L}
    (lt : L) (d : distMapClusterSet ClusterItem) i j (A B : list ClusterItem) :
  0 ≤ i → 0 ≤ j →
  clusters d !! Z.to_nat i = Some A → clusters d !! Z.to_nat j = Some B →
  linkage_score lt d i j
  = cycle lt (A ≫= fun a =>
                (fun b => (a, b, distMap_Distance d i j a b)) <$> B).
Proof.
  intros Hi Hj HA HB.
  rewrite (linkage_score_cycle lt d i j A
             (fun a => (fun b => (b, distMap_Distance d i j a b)) <$> B)).
  - f_equal. apply list_bind_ext; [|reflexivity]. intros a.
    rewrite <- list_fmap_compose. reflexivity.
  - simpl. unfold distMap_EachItem. apply index_Ok_lookup. auto.
  - intros a _. unfold ocs_EachItemDistance, default_EachItemDistance. simpl.
    unfold distMap_EachItem.
    rewrite (proj2 (index_Ok_lookup _ j B)) by auto. reflexivity.
Qed.

(** X7: Unweighted average linkage: after scoring two clusters of the distance
    map that hold [A] and [B] (neither empty, no item twice), the accumulator
    has seen exactly the items of [A] on the left and those of [B] on the
    right, and [LWParams] returns |A|/(|A|+|B|), |B|/(|A|+|B|), 0, 0. *)
Theorem upgma_LWParams_after_scoring (c c' : avgLinkage ClusterItem)
    (d : distMapClusterSet ClusterItem) i j (A B : list ClusterItem) s :
  isWeighted c = false → 0 ≤ i → 0 ≤ j →
  clusters d !! Z.to_nat i = Some A → clusters d !! Z.to_nat j = Some B →
  A ≠ [] → B ≠ [] → NoDup A → NoDup B →
  linkage_score c d i j = Ok (s, c') →
  leftCounts c' = Some (list_to_set A)
  ∧ rightCounts c' = Some (list_to_set B)
  ∧ avgLinkage_LWParams c'
    = [ (float64_of_len (length A)
         / (float64_of_len (length A) + float64_of_len (length B)))%float;
        (float64_of_len (length B)
         / (float64_of_len (length A) + float64_of_len (length B)))%float;
        0%float; 0%float ].
Proof.
  intros Hw Hi Hj HA HB HAne HBne HAnd HBnd Hrun.
  rewrite (distMap_linkage_score_cycle c d i j A B Hi Hj HA HB) in Hrun.
  unfold cycle in Hrun. bind_inv Hrun. injection Hrun as <- <-.
  set (obs := A ≫= fun a0 =>
                (fun b => (a0, b, distMap_Distance d i j a0 b)) <$> B) in *.
  destruct (avgLinkage_observe_sums obs (avgLinkage_Reset c))
    as (c1 & Hrun1 & _ & _ & Hw1 & Hsets).
  { intros _. unfold avgLinkage_Reset. rewrite Hw. simpl. eauto. }
  simpl in Ha. rewrite Ha in Hrun1. injection Hrun1 as <-.
  assert (Hwr : isWeighted (avgLinkage_Reset c) = false)
    by (unfold avgLinkage_Reset; rewrite Hw; reflexivity).
  rewrite Hwr in Hsets, Hw1. destruct Hsets as [Hl Hr].
  assert (Hl0 : leftCounts (avgLinkage_Reset c) = Some ∅)
    by (unfold avgLinkage_Reset; rewrite Hw; reflexivity).
  assert (Hr0 : rightCounts (avgLinkage_Reset c) = Some ∅)
    by (unfold avgLinkage_Reset; rewrite Hw; reflexivity).
  rewrite Hl0 in Hl. rewrite Hr0 in Hr. simpl in Hl, Hr.
  assert (HsetA : list_to_set obs.*1.*1 ∪ (∅ : gset ClusterItem)
                  = list_to_set A).
  { apply set_eq. intros k. rewrite elem_of_union, !elem_of_list_to_set.
    unfold obs. split.
    - intros [Hk|Hk]; [|set_solver].
      apply list_elem_of_fmap in Hk. destruct Hk as (p & -> & Hp).
      apply list_elem_of_fmap in Hp. destruct Hp as (q & -> & Hq).
      apply list_elem_of_bind in Hq. destruct Hq as (a0 & Hq & Ha0).
      apply list_elem_of_fmap in Hq. destruct Hq as (b & -> & Hb). exact Ha0.
    - intros Hk. left. destruct B as [|b B']; [contradiction|].
      apply list_elem_of_fmap. exists (k, b). split; [reflexivity|].
      apply list_elem_of_fmap.
      exists (k, b, distMap_Distance d i j k b). split; [reflexivity|].
      apply list_elem_of_bind. exists k. split; [|exact Hk].
      apply list_elem_of_fmap. exists b. split; [reflexivity|set_solver]. }
  assert (HsetB : list_to_set obs.*1.*2 ∪ (∅ : gset ClusterItem)
                  = list_to_set B).
  { apply set_eq. intros k. rewrite elem_of_union, !elem_of_list_to_set.
    unfold obs. split.
    - intros [Hk|Hk]; [|set_solver].
      apply list_elem_of_fmap in Hk. destruct Hk as (p & -> & Hp).
      apply list_elem_of_fmap in Hp. destruct Hp as (q & -> & Hq).
      apply list_elem_of_bind in Hq. destruct Hq as (a0 & Hq & Ha0).
      apply list_elem_of_fmap in Hq. destruct Hq as (b & -> & Hb). exact Hb.
    - intros Hk. left. destruct A as [|a0 A']; [contradiction|].
      apply list_elem_of_fmap. exists (a0, k). split; [reflexivity|].
      apply list_elem_of_fmap.
      exists (a0, k, distMap_Distance d i j a0 k). split; [reflexivity|].
      apply list_elem_of_bind. exists a0. split; [|set_solver].
      apply list_elem_of_fmap. exists k. split; [reflexivity|exact Hk]. }
  rewrite HsetA in Hl. rewrite HsetB in Hr.
  split; [exact Hl|]. split; [exact Hr|].
  unfold avgLinkage_LWParams. rewrite Hw1, Hl, Hr. simpl.
  rewrite !size_list_to_set by assumption. reflexivity.
Qed.

End SingleAndAverage.

(** ** No panic on the distance map *)

Lemma rows_le_refl dc : rows_le dc dc.
Proof. intros m Hm. eauto. Qed.

Lemma rows_le_trans dc1 dc2 dc3 :
  rows_le dc1 dc2 → rows_le dc2 dc3 → rows_le dc1 dc3.
Proof.
  intros H12 H23 m Hm. destruct (H12 m Hm) as (m2 & Hm2 & Hk2).
  destruct (H23 m2 Hm2) as (m3 & Hm3 & Hk3). eauto.
Qed.

Lemma has_rows_le dc dc' n : has_rows dc n → rows_le dc dc' → has_rows dc' n.
Proof.
  intros (m & Hm & Hk) Hle. destruct (Hle m Hm) as (m' & Hm' & Hk').
  exists m'. split; [exact Hm'|]. intros k Hr. apply Hk', Hk, Hr.
Qed.

Lemma cache_write_rows dc n x y v :
  has_rows dc n → 0 ≤ x < n →
  ∃ dc', cache_write dc x y v = Ok dc' ∧ has_rows dc' n ∧ rows_le dc dc'.
Proof.
  intros (m & -> & Hk) Hx. unfold cache_write.
  destruct (Hk x Hx) as [row Hrow]. rewrite Hrow.
  eexists. split; [reflexivity|]. split.
  - eexists. split; [reflexivity|]. intros k Hr.
    destruct (decide (x = k)) as [->|Hne].
    + rewrite lookup_insert_eq. eauto.
    + rewrite lookup_insert_ne by exact Hne. auto.
  - intros m0 [= <-]. eexists. split; [reflexivity|]. intros k Hr.
    destruct (decide (x = k)) as [->|Hne].
    + rewrite lookup_insert_eq. eauto.
    + rewrite lookup_insert_ne by exact Hne. auto.
Qed.

Section NoPanic.

Context {ClusterItem : Type} `{Countable ClusterItem}.
Context {L K : Type}.
Context `{LinkageType ClusterItem L}.
Context `{Checker K (distMapClusterSet ClusterItem)}.

Implicit Types h : HClustering L K (distMapClusterSet ClusterItem).
Implicit Types d : distMapClusterSet ClusterItem.

Hypothesis Put_after_Reset :
  ∀ (lt : L) (obs : list (ClusterItem * ClusterItem * float)),
    ∃ lt', observe (Reset lt) obs = Ok lt'.

Lemma linkage_score_total (lt : L) d i j :
  0 ≤ i < Count d → 0 ≤ j < Count d →
  ∃ s lt', linkage_score lt d i j = Ok (s, lt').
Proof.
  simpl. unfold distMap_Count. intros Hi Hj.
  destruct (lookup_lt_is_Some_2 (clusters d) (Z.to_nat i)) as [A HA]; [lia|].
  destruct (lookup_lt_is_Some_2 (clusters d) (Z.to_nat j)) as [B HB]; [lia|].
  rewrite (distMap_linkage_score_cycle lt d i j A B) by (auto; lia).
  unfold cycle.
  destruct (Put_after_Reset lt
              (A ≫= fun a =>
                 (fun b => (a, b, distMap_Distance d i j a b)) <$> B))
    as [lt' Hlt'].
  rewrite Hlt'. simpl. eauto.
Qed.

Lemma dist_compute_total h i j :
  0 ≤ i < Count (hClusterSet h) → 0 ≤ j < Count (hClusterSet h) →
  (∀ m, distCache h = Some m → is_Some (m !! i)) →
  ∃ s h', dist_compute h i j = Ok (s, h')
          ∧ rows_le (distCache h) (distCache h').
Proof.
  intros Hi Hj Hrow. unfold dist_compute.
  destruct (linkage_score_total (hLinkageType h) (hClusterSet h) i j Hi Hj)
    as (s & lt' & Hs).
  rewrite Hs. simpl. destruct (distCache h) as [m|] eqn:Hm.
  - destruct (Hrow m eq_refl) as [row Hr]. unfold cache_write. rewrite Hr.
    simpl. eexists _, _. split; [reflexivity|]. simpl.
    intros m0 [= <-]. eexists. split; [reflexivity|]. intros k Hk.
    destruct (decide (i = k)) as [->|Hne].
    + rewrite lookup_insert_eq. eauto.
    + rewrite lookup_insert_ne by exact Hne. exact Hk.
  - eexists _, _. split; [reflexivity|]. simpl. rewrite Hm.
    intros m0 [=].
Qed.

Lemma dist_total h i j :
  0 ≤ i < Count (hClusterSet h) → 0 ≤ j < Count (hClusterSet h) →
  ∃ s h', dist h i j = Ok (s, h')
          ∧ rows_le (distCache h) (distCache h').
Proof.
  intros Hi Hj. unfold dist. destruct (distCache h) as [m|] eqn:Hm.
  - assert (Hpair : (if j <? i then (j, i) else (i, j))
                    = (Z.min i j, Z.max i j)).
    { destruct (Z.ltb_spec j i); f_equal; lia. }
    rewrite Hpair. clear Hpair.
    destruct (m !! Z.min i j) as [row|] eqn:Hrow.
    + destruct (row !! Z.max i j) as [s|].
      * eexists _, _. split; [reflexivity|]. rewrite Hm. apply rows_le_refl.
      * destruct (dist_compute_total h (Z.min i j) (Z.max i j))
          as (s & h' & Hrun & Hle); try lia.
        { intros m0 Hm0. rewrite Hm in Hm0. injection Hm0 as <-.
          rewrite Hrow. eauto. }
        rewrite Hm in Hle. eauto.
    + destruct (dist_compute_total
                  (with_distCache h (Some (<[Z.min i j:=∅]> m)))
                  (Z.min i j) (Z.max i j))
        as (s & h' & Hrun & Hle); try (simpl in *; lia).
      { simpl. intros m0 [= <-]. rewrite lookup_insert_eq. eauto. }
      exists s, h'. split; [exact Hrun|].
      eapply rows_le_trans; [|exact Hle]. simpl.
      intros m0 [= <-]. eexists. split; [reflexivity|]. intros k Hk.
      destruct (decide (Z.min i j = k)) as [->|Hne].
      * rewrite lookup_insert_eq. eauto.
      * rewrite lookup_insert_ne by exact Hne. exact Hk.
  - destruct (dist_compute_total h i j Hi Hj) as (s & h' & Hrun & Hle).
    { intros m0 Hm0. congruence. }
    rewrite Hm in Hle. eauto.
Qed.


Lemma row_at_le dc dc' k : row_at dc k → rows_le dc dc' → row_at dc' k.
Proof.
  intros (m & Hm & Hk) Hle. destruct (Hle m Hm) as (m' & Hm' & Hk').
  exists m'. auto.
Qed.

Lemma is_Some_rows_le dc dc' : is_Some dc → rows_le dc dc' → is_Some dc'.
Proof. intros [m Hm] Hle. destruct (Hle m Hm) as (m' & -> & _). eauto. Qed.

Lemma best_pair_total h :
  is_Some (distCache h) →
  ∃ s p h', best_pair h = Ok (s, p, h')
            ∧ has_rows (distCache h') (Count (hClusterSet h) - 1).
Proof.
  intros Hsome. unfold best_pair.
  set (n := Count (hClusterSet h)).
  set (I := fun (pre : list Z)
                (st : float * option (Z * Z)
                      * HClustering L K (distMapClusterSet ClusterItem)) =>
              hClusterSet st.2 = hClusterSet h
              ∧ is_Some (distCache st.2)
              ∧ ∀ k, k ∈ pre → k < n - 1 → row_at (distCache st.2) k).
  match goal with
  | |- ∃ s p h', foldM ?body ?s0 ?xs = _ ∧ _ =>
      destruct (foldM_total_prefix I body xs [] s0) as (st' & Hrun & HI)
  end.
  - intros p c1 q st0 Heq (Hcs & Hs0 & Hrows).
    assert (Hc1 : c1 ∈ EachCluster (hClusterSet h) (-1)).
    { assert (Hin : c1 ∈ p ++ c1 :: q) by set_solver.
      rewrite <- Heq in Hin. exact Hin. }
    apply distMap_EachCluster_elem in Hc1.
    set (J := fun (pre2 : list Z)
                  (st : float * option (Z * Z)
                        * HClustering L K (distMapClusterSet ClusterItem)) =>
                hClusterSet st.2 = hClusterSet h
                ∧ is_Some (distCache st.2)
                ∧ rows_le (distCache st0.2) (distCache st.2)
                ∧ (pre2 ≠ [] → row_at (distCache st.2) c1)).
    match goal with
    | |- ∃ s1, foldM ?body ?s0 ?xs = _ ∧ _ =>
        destruct (foldM_total_prefix J body xs [] s0) as (st1 & Hrun1 & HJ)
    end.
    + intros p2 c2 q2 [[b pr] h2] Heq2 (Hcs2 & Hs2 & Hle2 & _).
      assert (Hc2 : c2 ∈ EachCluster (hClusterSet st0.2) c1).
      { assert (Hin : c2 ∈ p2 ++ c2 :: q2) by set_solver.
        rewrite <- Heq2 in Hin. exact Hin. }
      rewrite Hcs in Hc2. apply distMap_EachCluster_elem in Hc2.
      simpl in Hcs2, Hs2, Hle2.
      destruct (dist_total h2 c1 c2) as (sc & h3 & Hd & Hle3);
        [rewrite Hcs2; simpl in *; lia|rewrite Hcs2; simpl in *; lia|].
      simpl. rewrite Hd. simpl. eexists. split; [reflexivity|].
      unfold J. simpl.
      pose proof (dist_same_setup _ _ _ _ _ Hd) as (Hcs3 & _).
      split; [congruence|]. split; [eapply is_Some_rows_le; eauto|].
      split; [eapply rows_le_trans; eauto|]. intros _.
      destruct (dist_stores h2 c1 c2 sc h3 Hs2 Hd) as (m & row & Hm & Hr & _).
      replace (Z.min c1 c2) with c1 in Hr by lia.
      exists m. split; [exact Hm|]. rewrite Hr. eauto.
    + unfold J. split; [exact Hcs|]. split; [exact Hs0|].
      split; [apply rows_le_refl|]. intros Hne. contradiction.
    + exists st1. split; [exact Hrun1|]. simpl in HJ.
      destruct HJ as (Hcs1 & Hs1 & Hle1 & Hrow1).
      unfold I. split; [exact Hcs1|]. split; [exact Hs1|].
      intros k Hk Hkn. apply elem_of_app in Hk. destruct Hk as [Hk|Hk].
      * eapply row_at_le; [apply Hrows; assumption|exact Hle1].
      * apply list_elem_of_singleton in Hk. subst k. apply Hrow1.
        rewrite Hcs. simpl. rewrite distMap_EachCluster_seqZ.
        intros Hnil. apply (f_equal length) in Hnil.
        rewrite length_seqZ in Hnil. simpl in Hnil. unfold n in Hkn.
        simpl in Hkn. lia.
  - unfold I. split; [reflexivity|]. split; [exact Hsome|].
    intros k Hk. inversion Hk.
  - destruct st' as [[s p] h']. exists s, p, h'. split; [exact Hrun|].
    simpl in HI. destruct HI as (Hcs' & [m Hm] & Hrows).
    exists m. split; [exact Hm|]. intros k Hk.
    destruct (Hrows k) as (m' & Hm' & Hr).
    + apply distMap_EachCluster_elem. unfold n in *. simpl in *. lia.
    + unfold n. lia.
    + congruence.
Qed.


Lemma snapshot_total h i j :
  0 ≤ i < Count (hClusterSet h) → 0 ≤ j < Count (hClusterSet h) →
  ∃ diks djks h',
    snapshot h i j (Count (hClusterSet h)) = Ok (diks, djks, h')
    ∧ Z.of_nat (length diks) = Count (hClusterSet h)
    ∧ Z.of_nat (length djks) = Count (hClusterSet h)
    ∧ rows_le (distCache h) (distCache h').
Proof.
  intros Hi Hj. unfold snapshot.
  set (I := fun (pre : list Z)
                (st : list float * list float
                      * HClustering L K (distMapClusterSet ClusterItem)) =>
              length st.1.1 = length pre ∧ length st.1.2 = length pre
              ∧ hClusterSet st.2 = hClusterSet h
              ∧ rows_le (distCache h) (distCache st.2)).
  match goal with
  | |- ∃ diks djks h', foldM ?body ?s0 ?xs = _ ∧ _ =>
      destruct (foldM_total_prefix I body xs [] s0) as (st' & Hrun & HI)
  end.
  - intros p k q [[diks djks] h1] Heq (Hl1 & Hl2 & Hcs & Hle). simpl in *.
    assert (Hk : k ∈ seqZ 0 (distMap_Count (hClusterSet h))).
    { rewrite Heq. set_solver. }
    apply elem_of_seqZ in Hk.
    destruct (dist_total h1 i k) as (dik & h2 & Hd1 & Hle1);
      [rewrite Hcs; simpl; lia|rewrite Hcs; simpl; lia|].
    pose proof (dist_same_setup _ _ _ _ _ Hd1) as (Hcs2 & _).
    destruct (dist_total h2 j k) as (djk & h3 & Hd2 & Hle2);
      [rewrite Hcs2, Hcs; simpl; lia|rewrite Hcs2, Hcs; simpl; lia|].
    pose proof (dist_same_setup _ _ _ _ _ Hd2) as (Hcs3 & _).
    rewrite Hd1. simpl. rewrite Hd2. simpl.
    eexists. split; [reflexivity|]. unfold I. simpl.
    rewrite !length_app. simpl. split; [lia|]. split; [lia|].
    split; [congruence|].
    eapply rows_le_trans; [exact Hle|]. eapply rows_le_trans; eauto.
  - unfold I. simpl. split; [reflexivity|]. split; [reflexivity|].
    split; [reflexivity|apply rows_le_refl].
  - destruct st' as [[diks djks] h']. exists diks, djks, h'.
    split; [exact Hrun|]. simpl in HI. destruct HI as (Hl1 & Hl2 & _ & Hle).
    rewrite length_seqZ in Hl1, Hl2. simpl in *. unfold distMap_Count in *.
    split; [lia|]. split; [lia|exact Hle].
Qed.

Lemma move_cached_total dc n r nj nc :
  has_rows dc n → 0 ≤ r < n →
  ∃ dc', move_cached dc r nj nc = Ok dc' ∧ has_rows dc' n.
Proof.
  intros Hrows Hr. unfold move_cached.
  apply (foldM_total_in (fun dc0 => has_rows dc0 n)); [|exact Hrows].
  intros dc0 k Hk Hdc0. apply elem_of_seqZ in Hk.
  destruct (decide (k = nj)); [eauto|].
  destruct (Z.ltb_spec r k), (Z.ltb_spec nj k);
    (edestruct (cache_write_rows dc0 n) as (dc1 & Hw & Hrows1 & _);
     [exact Hdc0| |rewrite Hw; eauto]; lia).
Qed.

Lemma purge_cached_rows dc n nj nc :
  has_rows dc n → n ≤ nj → has_rows (purge_cached dc nj nc) n.
Proof.
  intros Hrows Hnj. unfold purge_cached.
  generalize (seqZ 0 nc). intros ks. revert dc Hrows.
  induction ks as [|k ks IH]; intros dc Hrows; simpl; [exact Hrows|].
  apply IH. destruct Hrows as (m & -> & Hk).
  destruct (decide (k = nj)) as [->|Hne].
  - eexists. split; [reflexivity|]. intros k' Hk'.
    rewrite lookup_delete_ne by lia. auto.
  - destruct (m !! k) as [row|] eqn:Hrow.
    + eexists. split; [reflexivity|]. intros k' Hk'.
      destruct (decide (k = k')) as [->|Hne'].
      * rewrite lookup_insert_eq. eauto.
      * rewrite lookup_insert_ne by exact Hne'. auto.
    + eexists. split; [reflexivity|]. exact Hk.
Qed.

Lemma lance_williams_total lw dik djk origDist :
  (4 ≤ length lw)%nat → ∃ v, lance_williams lw dik djk origDist = Ok v.
Proof.
  intros Hlen. unfold lance_williams.
  destruct lw as [|l0 [|l1 [|l2 [|l3 lw]]]]; simpl in Hlen; try lia.
  simpl. eauto.
Qed.

Lemma lw_update_total lw diks djks origDist ni nc dc n :
  (4 ≤ length lw)%nat → nc ≤ Z.of_nat (length diks) →
  nc ≤ Z.of_nat (length djks) → has_rows dc n → 0 ≤ ni < n → nc ≤ n →
  ∃ dc', lw_update lw diks djks origDist ni nc dc = Ok dc' ∧ has_rows dc' n.
Proof.
  intros Hlw Hdi Hdj Hrows Hni Hnc. unfold lw_update.
  apply (foldM_total_in (fun dc0 => has_rows dc0 n)); [|exact Hrows].
  intros dc0 k Hk Hdc0. apply elem_of_seqZ in Hk.
  destruct (lookup_lt_is_Some_2 diks (Z.to_nat k)) as [dik Hdik]; [lia|].
  destruct (lookup_lt_is_Some_2 djks (Z.to_nat k)) as [djk Hdjk]; [lia|].
  rewrite (index_lookup diks k dik) by (auto; lia). simpl.
  rewrite (index_lookup djks k djk) by (auto; lia). simpl.
  destruct (lance_williams_total lw dik djk origDist Hlw) as [v Hv].
  rewrite Hv. simpl.
  destruct (Z.ltb_spec ni k);
    (edestruct (cache_write_rows dc0 n) as (dc1 & Hw & Hrows1 & _);
     [exact Hdc0| |rewrite Hw; eauto]; lia).
Qed.


Lemma mergeAndUpdateAll_total h i j :
  0 ≤ i < j → j < Count (hClusterSet h) →
  (4 ≤ length (lwCache h))%nat →
  has_rows (distCache h) (Count (hClusterSet h) - 1) →
  ∃ h', mergeAndUpdateAll h i j = Ok h' ∧ is_Some (distCache h').
Proof.
  intros Hij Hj Hlw Hrows. unfold mergeAndUpdateAll.
  set (nc := Count (hClusterSet h)) in *.
  destruct (snapshot_total h i j) as (diks & djks & h1 & Hsn & Hl1 & Hl2 & Hle);
    [fold nc; lia|fold nc; lia|].
  fold nc in Hsn, Hl1, Hl2. rewrite Hsn. simpl.
  pose proof (snapshot_same_setup _ _ _ _ _ _ _ Hsn) as (Hcs & _ & Hlw1 & _).
  destruct (lookup_lt_is_Some_2 diks (Z.to_nat j)) as [orig Horig]; [lia|].
  rewrite (index_lookup diks j orig) by (auto; lia). simpl.
  destruct (proj2 (distMap_Merge_Ok_iff (hClusterSet h1) i j))
    as (d' & r & Hm).
  { rewrite Hcs. fold nc. simpl in *. lia. }
  destruct (distMap_Merge_Ok_distinct _ i j _ _ ltac:(lia) Hm)
    as (_ & _ & _ & _ & _ & _ & _ & _ & _ & ->).
  rewrite Hm. simpl.
  replace (Z.min i j) with i by lia.
  rewrite Hcs. fold nc. change (distMap_Count (hClusterSet h)) with nc.
  assert (Hrows1 : has_rows (distCache h1) (nc - 1))
    by (eapply has_rows_le; eauto).
  assert (Hmove : ∃ dc,
    (if decide (nc - 1 ≠ j)
     then
       dc ← move_cached (distCache h1) (if decide (i = j) then i else j)
               (nc - 1) nc;
       Ok (purge_cached dc (nc - 1) nc)
     else Ok (distCache h1)) = Ok dc ∧ has_rows dc (nc - 1)).
  { destruct (decide (nc - 1 ≠ j)) as [Hne|Heq]; [|eauto].
    destruct (decide (i = j)); [lia|].
    destruct (move_cached_total (distCache h1) (nc - 1) j (nc - 1) nc)
      as (dc & Hmv & Hr); [exact Hrows1|lia|].
    rewrite Hmv. simpl. eexists. split; [reflexivity|].
    apply purge_cached_rows; [exact Hr|lia]. }
  destruct Hmove as (dc & Hmv & Hr). simpl. rewrite Hmv. simpl.
  destruct (lw_update_total (lwCache h1) diks djks orig i (nc - 1) dc (nc - 1))
    as (dc' & Hup & Hr'); try lia; try assumption.
  { rewrite Hlw1. exact Hlw. }
  rewrite Hup. simpl. eexists. split; [reflexivity|]. simpl.
  destruct Hr' as (m & -> & _). eauto.
Qed.

Hypothesis LWParams_four : ∀ lt : L, length (LWParams lt) = 4%nat.

Lemma MergeNext_total h :
  cache_ready h →
  ∃ b h', MergeNext h = Ok (b, h') ∧ cache_ready h'.
Proof.
  intros Hwf. unfold MergeNext.
  assert (Hp : is_Some (distCache (prepare h))
               ∧ length (lwCache (prepare h)) = 4%nat).
  { unfold prepare. destruct (decide _) as [Hn|Hn]; simpl.
    - split; [eauto|apply LWParams_four].
    - assert (length (lwCache h) = 4%nat) by lia. auto. }
  destruct Hp as [Hps Hpl].
  destruct (best_pair_total (prepare h) Hps) as (s & p & h1 & Hbest & Hrows).
  rewrite Hbest. simpl.
  pose proof (best_pair_same_setup _ _ _ Hbest) as (Hcs & _ & Hlw & Hsome).
  assert (Hready : cache_ready h1) by (intros _; auto).
  destruct p as [[c1 c2]|]; [|eauto].
  destruct (s =? MaxFloat64)%float; [eauto|].
  destruct (negb _); [eauto|].
  apply best_pair_distMap_indices in Hbest.
  destruct (Hsome Hps) as [m Hm]. rewrite Hm.
  destruct (mergeAndUpdateAll_total h1 c1 c2) as (h2 & Hmu & Hs2).
  - lia.
  - rewrite Hcs. lia.
  - rewrite Hlw, Hpl. lia.
  - rewrite Hcs. exact Hrows.
  - rewrite Hmu. simpl. eexists _, _. split; [reflexivity|].
    intros _. exact Hs2.
Qed.

Lemma Cluster_loop_total fuel h :
  cache_ready h → Count (hClusterSet h) ≤ Z.of_nat fuel + 1 →
  ∃ hf, Cluster_loop fuel h = Some (Ok hf).
Proof.
  revert h. induction fuel as [|fuel IH]; intros h Hwf Hfuel; simpl in *.
  - destruct (Z.ltb_spec 1 (distMap_Count (hClusterSet h))); [lia|eauto].
  - destruct (Z.ltb_spec 1 (distMap_Count (hClusterSet h))); [|eauto].
    destruct (MergeNext_total h Hwf) as (b & h1 & Hm & Hwf1).
    rewrite Hm. destruct b; [|eauto].
    apply IH; [exact Hwf1|].
    apply MergeNext_distMap_Count in Hm. simpl in *. lia.
Qed.

End NoPanic.

Section BuiltinNeverPanic.

Context {ClusterItem : Type} `{Countable ClusterItem}.
Context {K : Type} `{Checker K (distMapClusterSet ClusterItem)}.

Lemma avgLinkage_observe_total (lt : avgLinkage ClusterItem)
    (obs : list (ClusterItem * ClusterItem * float)) :
  ∃ lt', observe (Reset lt) obs = Ok lt'.
Proof.
  destruct (avgLinkage_observe_same_sums obs
              (avgLinkage_Reset lt) (avgLinkage_Reset lt))
    as (c1 & _ & Hrun & _ & _).
  { apply avgLinkage_Reset_same_sums. reflexivity. }
  eauto.
Qed.

(** X15: On the distance map, with any checker and any of the built-in linkage
    strategies in any state, [Cluster] never panics and comes to an end within
    [Count() - 1] rounds: no index leaves its slice, no nil map is written. *)
Theorem Cluster_distMap_builtin_never_panics
    (c : distMapClusterSet ClusterItem) (chk : K) (fuel : nat) :
  Count c ≤ Z.of_nat fuel + 1 →
  (∀ lt : maxLinkage, ∃ hf, Cluster fuel c chk lt = Some (Ok hf))
  ∧ (∀ lt : minLinkage, ∃ hf, Cluster fuel c chk lt = Some (Ok hf))
  ∧ (∀ lt : avgLinkage ClusterItem,
       ∃ hf, Cluster fuel c chk lt = Some (Ok hf)).
Proof.
  intros Hfuel. split; [|split]; intros lt; unfold Cluster.
  - apply Cluster_loop_total; try exact Hfuel.
    + intros lt0 obs. apply maxLinkage_observe_total.
    + reflexivity.
    + intros Hlen. discriminate Hlen.
  - apply Cluster_loop_total; try exact Hfuel.
    + intros lt0 obs. apply minLinkage_observe_total.
    + reflexivity.
    + intros Hlen. discriminate Hlen.
  - apply Cluster_loop_total; try exact Hfuel.
    + apply avgLinkage_observe_total.
    + intros lt0. simpl. unfold avgLinkage_LWParams.
      destruct (isWeighted lt0); reflexivity.
    + intros Hlen. discriminate Hlen.
Qed.

End BuiltinNeverPanic.

(** ** The search ends on the lowest score *)

Section BestPair.

Context {ClusterItem : Type} `{Countable ClusterItem}.
Context {L K C : Type}.
Context `{LinkageType ClusterItem L} `{ClusterSet ClusterItem C} `{Checker K C}.

Implicit Types h : HClustering L K C.

Lemma dist_compute_keeps_cached h i j s h' a b v :
  (∀ m row, distCache h = Some m → m !! i = Some row → row !! j = None) →
  dist_compute h i j = Ok (s, h') →
  cached (distCache h) a b v → cached (distCache h') a b v.
Proof.
  intros Hfree Hrun (m & row & Hm & Hrow & Hv). unfold dist_compute in Hrun.
  bind_inv Hrun. destruct a0 as [s0 lt]. simpl in Hrun. rewrite Hm in Hrun.
  bind_inv Hrun. injection Hrun as <- <-.
  unfold cache_write in Ha0. destruct (m !! i) as [row0|] eqn:Hrow0;
    [|discriminate].
  injection Ha0 as <-. simpl.
  destruct (decide (i = Z.min a b)) as [->|Hne].
  - exists (<[Z.min a b:=<[j:=s0]> row0]> m), (<[j:=s0]> row0).
    rewrite lookup_insert_eq. split; [reflexivity|]. split; [reflexivity|].
    assert (row0 = row) by congruence. subst row0.
    destruct (decide (j = Z.max a b)) as [->|Hnej].
    + rewrite (Hfree m row Hm Hrow) in Hv. discriminate.
    + rewrite lookup_insert_ne by exact Hnej. exact Hv.
  - exists (<[i:=<[j:=s0]> row0]> m), row.
    rewrite lookup_insert_ne by exact Hne. auto.
Qed.

Lemma dist_keeps_cached h i j s h' a b v :
  dist h i j = Ok (s, h') →
  cached (distCache h) a b v → cached (distCache h') a b v.
Proof.
  intros Hrun Hc. pose proof Hc as (m & row & Hm & Hrow & Hv).
  unfold dist in Hrun. rewrite Hm in Hrun.
  destruct (if j <? i then (j, i) else (i, j)) as [i' j'].
  destruct (m !! i') as [row'|] eqn:Hrow'.
  - destruct (row' !! j') as [s0|] eqn:Hs0.
    + injection Hrun as <- <-. exact Hc.
    + eapply dist_compute_keeps_cached; [|exact Hrun|exact Hc].
      intros m0 r0 Hm0 Hr0. congruence.
  - eapply dist_compute_keeps_cached; [|exact Hrun|].
    + simpl. intros m0 r0 [= <-]. rewrite lookup_insert_eq.
      intros [= <-]. apply lookup_empty.
    + simpl. exists (<[i':=∅]> m), row. split; [reflexivity|].
      split; [|exact Hv].
      destruct (decide (i' = Z.min a b)) as [->|Hne]; [congruence|].
      rewrite lookup_insert_ne by exact Hne. exact Hrow.
Qed.

Lemma cached_dist h a b v :
  cached (distCache h) a b v → dist h a b = Ok (v, h).
Proof.
  intros (m & row & Hm & Hrow & Hv). unfold dist. rewrite Hm.
  assert (Hpair : (if b <? a then (b, a) else (a, b)) = (Z.min a b, Z.max a b)).
  { destruct (Z.ltb_spec b a); f_equal; lia. }
  rewrite Hpair, Hrow, Hv. reflexivity.
Qed.


Lemma searched_over_step h (V : Z → Z → Prop) best p h1 c1 c2 sc h2 :
  searched_over h V (best, p, h1) →
  c1 ∈ EachCluster (hClusterSet h) (-1) →
  c2 ∈ EachCluster (hClusterSet h) c1 →
  dist h1 c1 c2 = Ok (sc, h2) →
  searched_over h (fun a b => V a b ∨ (a = c1 ∧ b = c2))
    (consider (best, p) c1 c2 sc, h2).
Proof.
  intros (Hcs & Hsome & HV & Hbest) Hc1 Hc2 Hd. simpl in *.
  pose proof (dist_same_setup _ _ _ _ _ Hd) as (Hcs2 & _ & _ & Hsome2).
  destruct (dist_stores h1 c1 c2 sc h2 Hsome Hd) as (m & row & Hm & Hr & Hv).
  assert (Hnew : cached (distCache h2) c1 c2 sc) by (exists m, row; auto).
  unfold searched_over, consider. simpl.
  destruct (sc <? best)%float eqn:Hlt; simpl.
  - split; [congruence|]. split; [auto|]. split; [|auto].
    intros a b [Hab|[-> ->]].
    + destruct (HV a b Hab) as (v & Hc & Hvb). exists v. split.
      * eapply dist_keeps_cached; eauto.
      * eapply float_not_ltb_trans; eauto.
    + exists sc. split; [exact Hnew|apply float_ltb_irrefl].
  - split; [congruence|]. split; [auto|]. split.
    + intros a b [Hab|[-> ->]].
      * destruct (HV a b Hab) as (v & Hc & Hvb). exists v. split; [|exact Hvb].
        eapply dist_keeps_cached; eauto.
      * exists sc. auto.
    + destruct p as [[a b]|]; [|exact Hbest].
      destruct Hbest as (Ha & Hb & Hc). split; [exact Ha|].
      split; [exact Hb|]. eapply dist_keeps_cached; eauto.
Qed.

Lemma searched_over_ext h (V V' : Z → Z → Prop) st :
  (∀ a b, V' a b → V a b) → searched_over h V st → searched_over h V' st.
Proof.
  intros Hsub (Hcs & Hsome & HV & Hbest).
  split; [exact Hcs|]. split; [exact Hsome|]. split; [|exact Hbest].
  intros a b Hab. apply HV, Hsub, Hab.
Qed.

Lemma best_pair_searched h s p h' :
  is_Some (distCache h) → best_pair h = Ok (s, p, h') →
  searched_over h
    (fun a b => a ∈ EachCluster (hClusterSet h) (-1)
                ∧ b ∈ EachCluster (hClusterSet h) a)
    (s, p, h').
Proof.
  intros Hsome Hrun. unfold best_pair in Hrun.
  set (E0 := EachCluster (hClusterSet h) (-1)) in *.
  apply (foldM_invariant_prefix
           (fun pre st =>
              searched_over h
                (fun a b => a ∈ pre ∧ a ∈ E0
                            ∧ b ∈ EachCluster (hClusterSet h) a) st)
           _ E0 [] _ _) in Hrun.
  - eapply searched_over_ext; [|exact Hrun]. simpl. intros a b [Ha Hb]. auto.
  - intros p1 c1 q1 st0 st1 Heq Hst0 Hin.
    assert (Hc1 : c1 ∈ E0).
    { assert (Hx : c1 ∈ p1 ++ c1 :: q1) by set_solver.
      rewrite <- Heq in Hx. exact Hx. }
    pose proof Hst0 as (Hcs0 & _). rewrite Hcs0 in Hin.
    apply (foldM_invariant_prefix
             (fun pre2 st =>
                searched_over h
                  (fun a b => (a ∈ p1 ∧ a ∈ E0
                               ∧ b ∈ EachCluster (hClusterSet h) a)
                              ∨ (a = c1 ∧ b ∈ pre2)) st)
             _ (EachCluster (hClusterSet h) c1) [] _ _) in Hin.
    + eapply searched_over_ext; [|exact Hin]. simpl.
      intros a b (Ha & Ha0 & Hb). apply elem_of_app in Ha.
      destruct Ha as [Ha|Ha]; [left; auto|].
      apply list_elem_of_singleton in Ha. subst a. right. auto.
    + intros p2 c2 q2 [[b0 pr0] h2] st2 Heq2 Hst2 Hstep.
      assert (Hc2 : c2 ∈ EachCluster (hClusterSet h) c1).
      { assert (Hx : c2 ∈ p2 ++ c2 :: q2) by set_solver.
        rewrite <- Heq2 in Hx. exact Hx. }
      bind_inv Hstep. destruct a as [sc h3]. simpl in Hstep.
      injection Hstep as <-.
      eapply searched_over_ext;
        [|eapply searched_over_step; [exact Hst2|exact Hc1|exact Hc2|exact Ha]].
      simpl. intros a b [Hab|[-> Hb]].
      * left. left. exact Hab.
      * apply elem_of_app in Hb. destruct Hb as [Hb|Hb].
        -- left. right. auto.
        -- apply list_elem_of_singleton in Hb. subst b. right. auto.
    + eapply searched_over_ext; [|exact Hst0]. simpl.
      intros a b [Hab|[_ Hb]]; [exact Hab|inversion Hb].
  - split; [reflexivity|]. split; [exact Hsome|]. split; [|reflexivity].
    intros a b (Ha & _). inversion Ha.
Qed.

Lemma best_pair_lowest_cached h s p h' :
  is_Some (distCache h) → best_pair h = Ok (s, p, h') →
  (∀ a b, a ∈ EachCluster (hClusterSet h) (-1) →
          b ∈ EachCluster (hClusterSet h) a →
          ∃ v, dist h' a b = Ok (v, h') ∧ (v <? s)%float = false)
  ∧ match p with
    | Some (c1, c2) =>
        c1 ∈ EachCluster (hClusterSet h) (-1)
        ∧ c2 ∈ EachCluster (hClusterSet h) c1
        ∧ dist h' c1 c2 = Ok (s, h')
        ∧ (s <? MaxFloat64)%float = true
    | None => s = MaxFloat64
    end.
Proof.
  intros Hsome Hrun.
  pose proof (best_pair_score _ _ _ _ Hrun) as Hscore.
  destruct (best_pair_searched h s p h' Hsome Hrun)
    as (_ & _ & HV & Hbest). simpl in *.
  split.
  - intros a b Ha Hb. destruct (HV a b (conj Ha Hb)) as (v & Hc & Hv).
    exists v. split; [apply cached_dist; exact Hc|exact Hv].
  - destruct p as [[c1 c2]|]; [|exact Hbest].
    destruct Hbest as (H1' & H2' & Hc).
    split; [exact H1'|]. split; [exact H2'|].
    split; [apply cached_dist; exact Hc|exact Hscore].
Qed.

(** X9: The pair the search ends on has the lowest score, and every score is
    one [dist] now answers from the cache: for every pair of clusters the
    enumeration yields, asking [dist] again returns a score, without any
    change of state, that is not below the score the search ended on; for the
    pair it ended on, exactly that score. Without any pair the score is
    [MaxFloat64]. *)
Theorem best_pair_is_lowest h s p h' :
  is_Some (distCache h) → best_pair h = Ok (s, p, h') →
  (∀ a b, a ∈ EachCluster (hClusterSet h) (-1) →
          b ∈ EachCluster (hClusterSet h) a →
          ∃ v, dist h' a b = Ok (v, h') ∧ (v <? s)%float = false)
  ∧ match p with
    | Some (c1, c2) =>
        c1 ∈ EachCluster (hClusterSet h) (-1)
        ∧ c2 ∈ EachCluster (hClusterSet h) c1
        ∧ dist h' c1 c2 = Ok (s, h')
        ∧ (s <? MaxFloat64)%float = true
    | None => s = MaxFloat64
    end.
Proof. exact (best_pair_lowest_cached h s p h'). Qed.

End BestPair.

(** ** Where a run under [Threshold] stops *)

Section StopProperties.

Context {ClusterItem : Type} `{Countable ClusterItem}.
Context {L K C : Type}.
Context `{LinkageType ClusterItem L} `{ClusterSet ClusterItem C} `{Checker K C}.

Implicit Types h : HClustering L K C.

Lemma prepare_is_Some h : cache_ready h → is_Some (distCache (prepare h)).
Proof.
  unfold cache_ready, prepare. intros Hr.
  destruct (decide _) as [Hne|He]; simpl; [eauto|].
  apply Hr. destruct (decide (length (lwCache h) = 4%nat)); [assumption|].
  contradiction.
Qed.

(** [MergeNext] returns false only from its search: without a pair, or on a
    pair the checker refused. *)
Lemma MergeNext_false_inv h h' :
  MergeNext h = Ok (false, h') →
  ∃ s p, best_pair (prepare h) = Ok (s, p, h')
         ∧ match p with
           | None => True
           | Some (c1, c2) =>
               Check (hChecker h) (hClusterSet h) c1 c2 s = false
           end.
Proof.
  unfold MergeNext. intros Hrun.
  bind_inv Hrun. destruct a as [[s p] h1]. simpl in Hrun.
  pose proof (best_pair_score _ _ _ _ Ha) as Hs.
  pose proof (best_pair_same_setup _ _ _ Ha) as (Hcs & Hchk & _).
  rewrite prepare_ClusterSet in Hcs. rewrite prepare_Checker in Hchk.
  destruct p as [[c1 c2]|].
  - rewrite (float_ltb_not_eqb _ _ Hs) in Hrun.
    destruct (Check (hChecker h1) (hClusterSet h1) c1 c2 s) eqn:Hck;
      simpl in Hrun.
    + destruct (distCache h1); bind_inv Hrun;
        [|destruct a as [cs r]; simpl in Hrun]; discriminate.
    + injection Hrun as <-. exists s, (Some (c1, c2)). split; [exact Ha|].
      rewrite <- Hchk, <- Hcs. exact Hck.
  - injection Hrun as <-. exists s, None. split; [exact Ha|exact I].
Qed.

Lemma cache_write_is_Some dc x y v dc' :
  cache_write dc x y v = Ok dc' → is_Some dc'.
Proof.
  unfold cache_write. destruct dc as [m|]; [|discriminate].
  destruct (m !! x); [|discriminate]. intros [= <-]. eauto.
Qed.

Lemma purge_cached_is_Some dc nj nc :
  is_Some dc → is_Some (purge_cached dc nj nc).
Proof.
  unfold purge_cached. generalize (seqZ 0 nc). intros ks. revert dc.
  induction ks as [|k ks IH]; intros dc Hdc; simpl; [exact Hdc|].
  apply IH. destruct Hdc as [m ->].
  destruct (decide (k = nj)); [eauto|]. destruct (m !! k); eauto.
Qed.

Lemma mergeAndUpdateAll_keeps_cache h i j h' :
  is_Some (distCache h) → mergeAndUpdateAll h i j = Ok h' →
  is_Some (distCache h').
Proof.
  unfold mergeAndUpdateAll. intros Hsome Hrun.
  bind_inv Hrun. destruct a as [[diks djks] h1]. simpl in Hrun.
  apply snapshot_same_setup in Ha. destruct Ha as (_ & _ & _ & Hs1).
  specialize (Hs1 Hsome).
  bind_inv Hrun. bind_inv Hrun. destruct a0 as [cs [ni nj]]. simpl in Hrun.
  bind_inv Hrun. bind_inv Hrun. injection Hrun as <-. simpl.
  assert (Hsa : is_Some a0).
  { destruct (decide (nj ≠ j)).
    - bind_inv Ha1. injection Ha1 as <-. apply purge_cached_is_Some.
      unfold move_cached in Ha3.
      eapply (foldM_invariant (fun dc => is_Some dc)); [| |exact Ha3];
        [|exact Hs1].
      intros dc k dc' Hdc Hstep. simpl in Hstep. destruct (decide (k = nj)); [congruence|].
      destruct (_ <? k); destruct (nj <? k);
        eapply cache_write_is_Some; eauto.
    - injection Ha1 as <-. exact Hs1. }
  unfold lw_update in Ha2.
  eapply (foldM_invariant (fun dc => is_Some dc)); [| |exact Ha2];
    [|exact Hsa].
  intros dc k dc' Hdc Hstep. bind_inv Hstep. bind_inv Hstep. bind_inv Hstep.
  destruct (ni <? k); eapply cache_write_is_Some; eauto.
Qed.

(** From a state that holds a cache whenever it holds four coefficients,
    [MergeNext] always ends on a state with a cache. *)
Lemma MergeNext_keeps_cache h b h' :
  cache_ready h → MergeNext h = Ok (b, h') → is_Some (distCache h').
Proof.
  unfold MergeNext. intros Hr Hrun.
  bind_inv Hrun. destruct a as [[s p] h1]. simpl in Hrun.
  apply best_pair_same_setup in Ha. destruct Ha as (_ & _ & _ & Hs1).
  specialize (Hs1 (prepare_is_Some h Hr)).
  destruct p as [[c1 c2]|]; [|injection Hrun as <- <-; exact Hs1].
  destruct (s =? MaxFloat64)%float; [injection Hrun as <- <-; exact Hs1|].
  destruct (negb _); [injection Hrun as <- <-; exact Hs1|].
  destruct Hs1 as [m Hm]. rewrite Hm in Hrun.
  bind_inv Hrun. injection Hrun as <- <-.
  eapply mergeAndUpdateAll_keeps_cache; [|exact Ha]. rewrite Hm. eauto.
Qed.

End StopProperties.

Section ThresholdStop.

Context {ClusterItem : Type} `{Countable ClusterItem}.
Context {L C : Type}.
Context `{LinkageType ClusterItem L} `{ClusterSet ClusterItem C}.

Implicit Types h : HClustering L simpleThreshold C.

(** Under [Threshold(t)] with [t] below [MaxFloat64], [MergeNext] gives up
    only when no pair is left within the threshold: when it returns false,
    every pair of clusters the enumeration yields has a score, the one
    [dist] now answers from the cache, that is not [<= t]. *)
Lemma MergeNext_Threshold_false h h' :
  cache_ready h →
  (threshold_val (hChecker h) <? MaxFloat64)%float = true →
  MergeNext h = Ok (false, h') →
  ∀ a b, a ∈ EachCluster (hClusterSet h) (-1) →
         b ∈ EachCluster (hClusterSet h) a →
         ∃ v, dist h' a b = Ok (v, h')
              ∧ (v <=? threshold_val (hChecker h))%float = false.
Proof.
  intros Hr Ht Hrun a b Ha Hb.
  destruct (MergeNext_false_inv h h' Hrun) as (s & p & Hbest & Hp).
  destruct (best_pair_lowest_cached (prepare h) s p h'
              (prepare_is_Some h Hr) Hbest) as (Hall & Hend).
  rewrite prepare_ClusterSet in Hall, Hend.
  destruct (Hall a b Ha Hb) as (v & Hd & Hv).
  exists v. split; [exact Hd|].
  destruct p as [[c1 c2]|].
  - destruct Hend as (_ & _ & _ & Hs). simpl in Hp.
    eapply float_above_threshold; eauto.
  - subst s. eapply float_not_below_bound; eauto.
Qed.

(** X14: A run of [Cluster] under [Threshold(t)], [t] below [MaxFloat64], ends
    only when fewer than two clusters are left or no pair is left within the
    threshold: every pair of clusters the final data source enumerates then
    has a score in the engine, the one [dist] answers, that is not [<= t]. *)
Theorem Cluster_Threshold_stops_when_none_within fuel h hf :
  cache_ready h →
  (threshold_val (hChecker h) <? MaxFloat64)%float = true →
  Cluster_loop fuel h = Some (Ok hf) →
  Count (hClusterSet hf) ≤ 1
  ∨ ∀ a b, a ∈ EachCluster (hClusterSet hf) (-1) →
           b ∈ EachCluster (hClusterSet hf) a →
           ∃ v, dist hf a b = Ok (v, hf)
                ∧ (v <=? threshold_val (hChecker h))%float = false.
Proof.
  revert h. induction fuel as [|fuel IH]; intros h Hr Ht Hrun; simpl in Hrun.
  - destruct (Z.ltb_spec 1 (Count (hClusterSet h))); [discriminate|].
    injection Hrun as <-. left. assumption.
  - destruct (Z.ltb_spec 1 (Count (hClusterSet h)));
      [|injection Hrun as <-; left; assumption].
    destruct (MergeNext h) as [[[] h1]|] eqn:Hm; [| |discriminate].
    + pose proof (MergeNext_Checker _ _ _ Hm) as Hchk.
      rewrite <- Hchk. apply IH; [|rewrite Hchk; exact Ht|exact Hrun].
      intros _. eapply MergeNext_keeps_cache; eauto.
    + injection Hrun as <-. right.
      pose proof (MergeNext_ClusterSet _ _ _ Hm) as Hcs. simpl in Hcs.
      rewrite Hcs. apply MergeNext_Threshold_false; assumption.
Qed.

End ThresholdStop.

Open Scope string_scope.

(** C1 (the code departs from the claim).  The quick-start data, clusters in
    the order a, b, c, d, e.  The first [MergeNext] merges clusters 0 and 1;
    the data source moves the last cluster, e, into the vacated index 1.  The
    Lance-Williams loop then fills the cache entry of the pair (0, 1) from the
    snapshots taken at index 1 before the merge, those of the old cluster b,
    and not from those of e: [dist 0 1] answers 0 under single linkage and 1
    under complete linkage, where recomputing from the items of (a, b) and
    (e) gives 0.4 for both.  The single-linkage run ends on (a, b, e, d) and
    (c) because of it. *)
Theorem dist_stale_after_relocation :
  cached_and_fresh (engine quickstart_set (MaxClusters 2) SingleLinkage) 0 1
  = Some ([["a"; "b"]; ["e"]; ["c"]; ["d"]],
          [0.5; 0.5; 0; -0.5]%float,
          Some 0%float, Some 0x1.999999999999ap-2%float)
  ∧ cached_and_fresh (engine quickstart_set (MaxClusters 2) CompleteLinkage)
      0 1
    = Some ([["a"; "b"]; ["e"]; ["c"]; ["d"]],
            [0.5; 0.5; 0; 0.5]%float,
            Some 1%float, Some 0x1.999999999999ap-2%float)
  ∧ final_clusters (Cluster 5 quickstart_set (MaxClusters 2) SingleLinkage)
    = Some (Ok [["a"; "b"; "e"; "d"]; ["c"]]).
Proof. split; [|split]; vm_compute; reflexivity. Qed.

(** The stale entries are no accident of the order a, b, c, d, e.  Under
    single and under complete linkage the three cheapest merges join a, b and
    c and join d and e, so two clusters left means (a, b, c) and (d, e).  Of
    the 120 orders of first meeting, the run of the code ends there in 36
    under single linkage and in 72 under complete linkage. *)
Lemma quickstart_partition_by_order :
  length (filter (fun ok => ok = true)
            ((fun visit =>
                ends_with_de (Cluster 5 (quickstart_set_in visit)
                                (MaxClusters 2) SingleLinkage))
             <$> quickstart_orders)) = 36%nat
  ∧ length (filter (fun ok => ok = true)
              ((fun visit =>
                  ends_with_de (Cluster 5 (quickstart_set_in visit)
                                  (MaxClusters 2) CompleteLinkage))
               <$> quickstart_orders)) = 72%nat
  ∧ length quickstart_orders = 120%nat.
Proof. split; [|split]; vm_compute; reflexivity. Qed.

(** C2 (the code departs from the claim).  [MergeNext] reads the
    coefficients of unweighted average linkage once, before any pair has been
    scored: both item sets are still nil, so the slice is 0/0, 0/0, 0, 0.  It
    has length 4 and is kept for the whole run.  At the first merge of the
    quick-start data the merged clusters (a) and (b) hold one item each, for
    which [LWParams] asked after scoring that pair returns 1/2, 1/2; the
    update made with NaN instead leaves NaN as the cached distance from the
    merged cluster to (c), where the items give 0.05. *)
Theorem upgma_coefficients_read_before_scoring :
  lwCache (prepare (engine quickstart_set (MaxClusters 2)
                      (AverageLinkage string)))
  = [nan; nan; 0; 0]%float
  ∧ match linkage_score (AverageLinkage string) quickstart_set 0 1 with
    | Ok (_, lt) => avgLinkage_LWParams lt
    | Panic _ => []
    end = [0.5; 0.5; 0; 0]%float
  ∧ cached_and_fresh
      (engine quickstart_set (MaxClusters 2) (AverageLinkage string)) 0 2
    = Some ([["a"; "b"]; ["e"]; ["c"]; ["d"]],
            [nan; nan; 0; 0]%float,
            Some nan, Some 0x1.999999999999ap-5%float).
Proof. split; [|split]; vm_compute; reflexivity. Qed.

(** C3 (the code departs from the claim).  [MergeNext] allocates the cache
    whenever the coefficient slice has not length 4, so the branch that
    merges without a cache is never taken and [mergeAndUpdateAll] indexes the
    slice at 0..3.  A strategy whose [LWParams] returns no value, or three,
    makes the first merge of the two-item test set panic with an index out of
    range; with five values the run completes. *)
Theorem short_LWParams_panics :
  final_clusters (Cluster 2 pair_set (Threshold 0) (custom []))
  = Some (Panic IndexOutOfRange)
  ∧ final_clusters
      (Cluster 2 pair_set (Threshold 0) (custom [0.5; 0.5; 0]%float))
    = Some (Panic IndexOutOfRange)
  ∧ final_clusters
      (Cluster 2 pair_set (Threshold 0) (custom [0.5; 0.5; 0; 0.5; 0]%float))
    = Some (Ok [["a"; "b"]]).
Proof. split; [|split]; vm_compute; reflexivity. Qed.

(** C5 (the code departs from the claim).  On the five items of the quick
    start, with the checker [MaxClusters(2)], complete, single and weighted
    average linkage stop at 2 clusters; unweighted average linkage stops at
    3: every distance its NaN coefficients produced is NaN, no NaN score is
    below the best score, and the third [MergeNext] finds no pair.  It does
    so in whichever order the five items are first met. *)
Theorem upgma_run_stops_at_three_clusters :
  final_clusters
    (Cluster 5 quickstart_set (MaxClusters 2) (AverageLinkage string))
  = Some (Ok [["a"; "b"]; ["e"; "d"]; ["c"]])
  ∧ final_clusters (Cluster 5 quickstart_set (MaxClusters 2) CompleteLinkage)
    = Some (Ok [["a"; "b"; "c"]; ["e"; "d"]])
  ∧ final_clusters (Cluster 5 quickstart_set (MaxClusters 2) SingleLinkage)
    = Some (Ok [["a"; "b"; "e"; "d"]; ["c"]])
  ∧ final_clusters
      (Cluster 5 quickstart_set (MaxClusters 2) (WeightedAverageLinkage string))
    = Some (Ok [["a"; "b"; "c"]; ["e"; "d"]])
  ∧ forallb
      (fun visit =>
         ends_with 3 (Cluster 5 (quickstart_set_in visit) (MaxClusters 2)
                        (AverageLinkage string)))
      quickstart_orders = true.
Proof. split; [|split; [|split; [|split]]]; vm_compute; reflexivity. Qed.

(** ** Instances of the general statements *)

(** C4 as stated fails twice.  After [Reset], [Put] of -5 and then of -7
    leaves -7 in [Get], though -7 < -5: a held value below zero is taken for
    "nothing observed yet" and overwritten.  And the score of a pair for
    which nothing was put, -1, is selected by the best-pair search: on a data
    source whose cluster 0 has no item the search ends on the pair (0, 1)
    with score -1, and [Cluster] merges that pair. *)
Lemma maxLinkage_claim_counterexample :
  returned (cycle CompleteLinkage
              [("a", "b", (-5)%float); ("a", "c", (-7)%float)])
  = Some (-7)%float
  ∧ (-7 <? -5)%float = true
  ∧ returned (cycle CompleteLinkage ([] : list (string * string * float)))
    = Some (-1)%float
  ∧ searched (engine hollow_set (Threshold 1) CompleteLinkage)
    = Some ((-1)%float, Some (0, 1))
  ∧ final_clusters (Cluster 3 hollow_set (MaxClusters 2) CompleteLinkage)
    = Some (Ok [["d"]; ["e"]]).
Proof. split; [|split; [|split; [|split]]]; vm_compute; reflexivity. Qed.

Lemma maxLinkage_Get_is_max_witness :
  Forall (fun o' : string * string * float => nonneg o'.2)
    [("a", "b", 0.5%float); ("a", "c", 0.25%float)]
  ∧ ∃ c', observe (maxLinkage_Reset CompleteLinkage)
            [("a", "b", 0.5%float); ("a", "c", 0.25%float)] = Ok c'
          ∧ maxLinkage_Get c' ∈ [0.5%float; 0.25%float].
Proof.
  assert (Hobs : Forall (fun o' : string * string * float => nonneg o'.2)
                   [("a", "b", 0.5%float); ("a", "c", 0.25%float)]).
  { repeat constructor. }
  split; [exact Hobs|].
  destruct (maxLinkage_Get_is_max_of_nonneg CompleteLinkage
              ("a", "b", 0.5%float) [("a", "c", 0.25%float)] Hobs)
    as [(c' & Hrun & Hin & _) _].
  exists c'. split; [exact Hrun|exact Hin].
Defined.

(** The avg accumulators pick the score 0.0 of the itemless cluster over the
    genuine 0.1 of the pair (d), (e). *)
Lemma avgLinkage_empty_score_example :
  searched (engine hollow_set (Threshold 1) (AverageLinkage string))
  = Some (0%float, Some (0, 1))
  ∧ searched (engine hollow_set (Threshold 1) (WeightedAverageLinkage string))
    = Some (0%float, Some (0, 1)).
Proof. split; vm_compute; reflexivity. Qed.

Lemma MergeNext_Count_witness :
  ∃ h', MergeNext (engine quickstart_set (MaxClusters 2) CompleteLinkage)
        = Ok (true, h')
        ∧ Count (hClusterSet h') = 5 - 1.
Proof.
  assert (Hmerged :
    match MergeNext (engine quickstart_set (MaxClusters 2) CompleteLinkage)
    with Ok (true, _) => true | _ => false end = true)
    by (vm_compute; reflexivity).
  destruct (MergeNext (engine quickstart_set (MaxClusters 2) CompleteLinkage))
    as [[[] h']|p] eqn:Hrun; try discriminate Hmerged.
  exists h'. split; [reflexivity|].
  exact (proj1 (MergeNext_Count_drops_by_one _ _ _ Hrun)).
Defined.

Lemma checker_veto_witness :
  ∃ h1, MergeNext (engine quickstart_set (MaxClusters 5) CompleteLinkage)
        = Ok (false, h1)
        ∧ hClusterSet h1 = quickstart_set.
Proof.
  assert (Hfound :
    match best_pair (prepare (ClusterItem:=string)
                       (engine quickstart_set (MaxClusters 5)
                          CompleteLinkage))
    with Ok (_, Some _, _) => true | _ => false end = true)
    by (vm_compute; reflexivity).
  destruct (best_pair (prepare (ClusterItem:=string)
                         (engine quickstart_set (MaxClusters 5)
                            CompleteLinkage)))
    as [[[bestScore [[c1 c2]|]] h1]|p] eqn:Hbest; try discriminate Hfound.
  exists h1.
  assert (Hveto : Check (MaxClusters 5) quickstart_set c1 c2 bestScore
                  = false) by (vm_compute; reflexivity).
  destruct (checker_veto_stops_without_merge _ _ _ _ _ Hbest Hveto)
    as (Hm & Hcs & _).
  split; [exact Hm|exact Hcs].
Defined.

(** The map of [TestDistanceMapClustering1] holds (a, b) only; both orders
    read 0.0, and an item pair it does not hold at all reads 1.0. *)
Lemma distMap_Distance_example :
  entry pair_map "b" "a" = None
  ∧ distMap_Distance pair_set 0 1 "a" "b" = 0%float
  ∧ distMap_Distance pair_set 1 0 "b" "a" = 0%float
  ∧ distMap_Distance pair_set 0 1 "a" "c" = 1%float.
Proof. split; [|split; [|split]]; vm_compute; reflexivity. Qed.

(** ** Instances of the further statements *)

(** The first merge of the quick-start set: clusters 0 and 1 are joined at
    index 0 and the last cluster, e, is moved to index 1. *)
Lemma distMap_Merge_relocates_last_witness :
  ∃ d' r, distMap_Merge quickstart_set 0 1 = Ok (d', r)
          ∧ clusters d' !! 0%nat = Some ["a"; "b"]
          ∧ clusters d' !! 1%nat = Some ["e"]
          ∧ clusters d' !! 2%nat = Some ["c"].
Proof.
  assert (Hok : match distMap_Merge quickstart_set 0 1 with
                | Ok _ => true | Panic _ => false end = true)
    by (vm_compute; reflexivity).
  destruct (distMap_Merge quickstart_set 0 1) as [[d' r]|p] eqn:Hm;
    [|discriminate Hok].
  assert (Hcount : distMap_Count quickstart_set = 5)
    by (vm_compute; reflexivity).
  assert (Hne : 0 ≠ 1) by lia.
  assert (Hk : ∀ k, 0 ≤ k < 4 → 0 ≤ k < distMap_Count quickstart_set - 1)
    by (rewrite Hcount; lia).
  exists d', r. split; [reflexivity|].
  split; [|split].
  - change 0%nat with (Z.to_nat 0).
    rewrite (distMap_Merge_relocates_last quickstart_set 0 1 d' r 0 Hne Hm
               (Hk 0 ltac:(lia))).
    vm_compute. reflexivity.
  - change 1%nat with (Z.to_nat 1).
    rewrite (distMap_Merge_relocates_last quickstart_set 0 1 d' r 1 Hne Hm
               (Hk 1 ltac:(lia))).
    vm_compute. reflexivity.
  - change 2%nat with (Z.to_nat 2).
    rewrite (distMap_Merge_relocates_last quickstart_set 0 1 d' r 2 Hne Hm
               (Hk 2 ltac:(lia))).
    vm_compute. reflexivity.
Defined.

Lemma distMap_Merge_keeps_items_witness :
  ∃ d' r, distMap_Merge quickstart_set 3 1 = Ok (d', r)
          ∧ concat (clusters d') ≡ₚ ["a"; "b"; "c"; "d"; "e"].
Proof.
  assert (Hok : match distMap_Merge quickstart_set 3 1 with
                | Ok _ => true | Panic _ => false end = true)
    by (vm_compute; reflexivity).
  destruct (distMap_Merge quickstart_set 3 1) as [[d' r]|p] eqn:Hm;
    [|discriminate Hok].
  assert (Hne : 3 ≠ 1) by lia.
  assert (Hitems : concat (clusters quickstart_set)
                   = ["a"; "b"; "c"; "d"; "e"])
    by (vm_compute; reflexivity).
  exists d', r. split; [reflexivity|].
  rewrite <- Hitems.
  exact (distMap_Merge_keeps_items quickstart_set 3 1 d' r Hne Hm).
Defined.

Lemma minLinkage_Get_is_min_witness :
  ∃ c', observe (minLinkage_Reset SingleLinkage)
          [("a", "b", 0.5%float); ("a", "c", 0.25%float)] = Ok c'
        ∧ minLinkage_Get c' ∈ [0.5%float; 0.25%float]
        ∧ Forall (fun o' : string * string * float =>
                    (minLinkage_Get c' <=? o'.2)%float = true)
            [("a", "b", 0.5%float); ("a", "c", 0.25%float)].
Proof.
  assert (Hobs : Forall (fun o' : string * string * float => nonneg o'.2)
                   [("a", "b", 0.5%float); ("a", "c", 0.25%float)]).
  { repeat constructor. }
  exact (minLinkage_Get_is_min_of_nonneg SingleLinkage
           ("a", "b", 0.5%float) [("a", "c", 0.25%float)] Hobs).
Defined.

(** Scoring the clusters (a) and (b) of the quick start leaves the
    coefficients 1/2, 1/2, 0, 0 in [LWParams]. *)
Lemma upgma_LWParams_after_scoring_witness :
  ∃ s c', linkage_score (AverageLinkage string) quickstart_set 0 1
          = Ok (s, c')
          ∧ avgLinkage_LWParams c' = [0.5; 0.5; 0; 0]%float.
Proof.
  assert (Hok : match linkage_score (AverageLinkage string) quickstart_set 0 1
                with Ok _ => true | Panic _ => false end = true)
    by (vm_compute; reflexivity).
  destruct (linkage_score (AverageLinkage string) quickstart_set 0 1)
    as [[s c']|p] eqn:Hrun; [|discriminate Hok].
  exists s, c'. split; [reflexivity|].
  assert (HA : clusters quickstart_set !! Z.to_nat 0 = Some ["a"])
    by (vm_compute; reflexivity).
  assert (HB : clusters quickstart_set !! Z.to_nat 1 = Some ["b"])
    by (vm_compute; reflexivity).
  destruct (upgma_LWParams_after_scoring (AverageLinkage string) c'
              quickstart_set 0 1 ["a"] ["b"] s)
    as (_ & _ & Hlw);
    [reflexivity|lia|lia|exact HA|exact HB|discriminate|discriminate
    |apply NoDup_singleton|apply NoDup_singleton|exact Hrun|].
  rewrite Hlw. vm_compute. reflexivity.
Defined.

Lemma dist_memoizes_witness :
  ∃ s h',
    dist (prepare (ClusterItem:=string)
            (engine quickstart_set (MaxClusters 2) CompleteLinkage)) 3 1
    = Ok (s, h')
    ∧ dist h' 3 1 = Ok (s, h') ∧ dist h' 1 3 = Ok (s, h').
Proof.
  assert (Hok : match dist (prepare (ClusterItem:=string)
                              (engine quickstart_set (MaxClusters 2)
                                 CompleteLinkage)) 3 1
                with Ok _ => true | Panic _ => false end = true)
    by (vm_compute; reflexivity).
  destruct (dist (prepare (ClusterItem:=string)
                    (engine quickstart_set (MaxClusters 2) CompleteLinkage))
              3 1) as [[s h']|p] eqn:Hrun; [|discriminate Hok].
  exists s, h'. split; [reflexivity|].
  assert (Hsome :
    is_Some (distCache (prepare (ClusterItem:=string)
                          (engine quickstart_set (MaxClusters 2)
                             CompleteLinkage))))
    by (apply prepare_is_Some; intros Hlen; discriminate Hlen).
  destruct (dist_memoizes _ 3 1 s h' Hsome Hrun) as (H1 & H2 & _).
  split; [exact H1|exact H2].
Defined.

Lemma MergeNext_merges_with_consent_witness :
  ∃ h' s c1 c2 r,
    MergeNext (engine quickstart_set (MaxClusters 2) CompleteLinkage)
    = Ok (true, h')
    ∧ Check (MaxClusters 2) quickstart_set c1 c2 s = true
    ∧ Merge quickstart_set c1 c2 = Ok (hClusterSet h', r).
Proof.
  assert (Hmerged :
    match MergeNext (engine quickstart_set (MaxClusters 2) CompleteLinkage)
    with Ok (true, _) => true | _ => false end = true)
    by (vm_compute; reflexivity).
  destruct (MergeNext (engine quickstart_set (MaxClusters 2) CompleteLinkage))
    as [[[] h']|p] eqn:Hrun; try discriminate Hmerged.
  destruct (MergeNext_merges_with_consent _ _ Hrun)
    as (s & c1 & c2 & h1 & r & _ & _ & Hck & Hm).
  exists h', s, c1, c2, r. split; [reflexivity|]. split; [exact Hck|exact Hm].
Defined.

Lemma best_pair_is_lowest_witness :
  ∃ s p h',
    best_pair (prepare (ClusterItem:=string)
                 (engine quickstart_set (MaxClusters 2) CompleteLinkage))
    = Ok (s, p, h')
    ∧ ∀ a b, a ∈ EachCluster quickstart_set (-1) →
             b ∈ EachCluster quickstart_set a →
             ∃ v, dist h' a b = Ok (v, h') ∧ (v <? s)%float = false.
Proof.
  assert (Hok :
    match best_pair (prepare (ClusterItem:=string)
                       (engine quickstart_set (MaxClusters 2)
                          CompleteLinkage))
    with Ok _ => true | Panic _ => false end = true)
    by (vm_compute; reflexivity).
  destruct (best_pair (prepare (ClusterItem:=string)
                         (engine quickstart_set (MaxClusters 2)
                            CompleteLinkage)))
    as [[[s p] h']|e] eqn:Hrun; [|discriminate Hok].
  exists s, p, h'. split; [reflexivity|].
  assert (Hsome :
    is_Some (distCache (prepare (ClusterItem:=string)
                          (engine quickstart_set (MaxClusters 2)
                             CompleteLinkage))))
    by (apply prepare_is_Some; intros Hlen; discriminate Hlen).
  exact (proj1 (best_pair_is_lowest _ s p h' Hsome Hrun)).
Defined.

Lemma Cluster_distMap_keeps_items_witness :
  ∃ hf, Cluster 5 quickstart_set (MaxClusters 2) CompleteLinkage
        = Some (Ok hf)
        ∧ concat (clusters (hClusterSet hf)) ≡ₚ ["a"; "b"; "c"; "d"; "e"].
Proof.
  assert (Hok :
    match Cluster 5 quickstart_set (MaxClusters 2) CompleteLinkage
    with Some (Ok _) => true | _ => false end = true)
    by (vm_compute; reflexivity).
  destruct (Cluster 5 quickstart_set (MaxClusters 2) CompleteLinkage)
    as [[hf|p]|] eqn:Hrun; try discriminate Hok.
  exists hf. split; [reflexivity|].
  assert (Hitems : concat (clusters quickstart_set)
                   = ["a"; "b"; "c"; "d"; "e"])
    by (vm_compute; reflexivity).
  rewrite <- Hitems.
  exact (proj1 (Cluster_distMap_keeps_items 5 _ hf Hrun)).
Defined.

(** [NewDistanceMapClusterSet(nil)] of [TestDistanceMapClustering1] has no
    cluster. *)
Lemma few_clusters_nothing_to_merge_witness :
  MergeNext (engine (NewDistanceMapClusterSet (∅ : gmap string _) [])
               (Threshold 1) CompleteLinkage)
  = Ok (false,
        prepare (ClusterItem:=string)
          (engine (NewDistanceMapClusterSet (∅ : gmap string _) [])
             (Threshold 1) CompleteLinkage)).
Proof.
  assert (Hcount :
    (Count (hClusterSet
              (engine (NewDistanceMapClusterSet (∅ : gmap string _) [])
                 (Threshold 1) CompleteLinkage)) ≤ 1)%Z)
    by (vm_compute; discriminate).
  exact (proj1 (few_clusters_nothing_to_merge _ Hcount)).
Defined.

Lemma MaxClusters_is_a_floor_witness :
  ∃ hf, Cluster 5 quickstart_set (MaxClusters 2) SingleLinkage = Some (Ok hf)
        ∧ (2 ≤ Count (hClusterSet hf))%Z.
Proof.
  assert (Hok :
    match Cluster 5 quickstart_set (MaxClusters 2) SingleLinkage
    with Some (Ok _) => true | _ => false end = true)
    by (vm_compute; reflexivity).
  destruct (Cluster 5 quickstart_set (MaxClusters 2) SingleLinkage)
    as [[hf|p]|] eqn:Hrun; try discriminate Hok.
  exists hf. split; [reflexivity|].
  apply (proj1 (MaxClusters_is_a_floor 5 _ hf Hrun)).
  vm_compute. discriminate.
Defined.

(** The run of [TestDistanceMapClustering3]. *)
Lemma Cluster_Threshold_stop_witness :
  ∃ hf, Cluster 5 quickstart_set (Threshold 0x1.999999999999ap-2)
          CompleteLinkage = Some (Ok hf)
        ∧ ((Count (hClusterSet hf) ≤ 1)%Z
           ∨ ∀ a b, a ∈ EachCluster (hClusterSet hf) (-1) →
                    b ∈ EachCluster (hClusterSet hf) a →
                    ∃ v, dist hf a b = Ok (v, hf)
                         ∧ (v <=? 0x1.999999999999ap-2)%float = false).
Proof.
  assert (Hok :
    match Cluster 5 quickstart_set (Threshold 0x1.999999999999ap-2)
            CompleteLinkage
    with Some (Ok _) => true | _ => false end = true)
    by (vm_compute; reflexivity).
  destruct (Cluster 5 quickstart_set (Threshold 0x1.999999999999ap-2)
              CompleteLinkage) as [[hf|p]|] eqn:Hrun; try discriminate Hok.
  exists hf. split; [reflexivity|].
  apply (Cluster_Threshold_stops_when_none_within 5
           (engine quickstart_set (Threshold 0x1.999999999999ap-2)
              CompleteLinkage) hf);
    [intros Hlen; discriminate Hlen|reflexivity|exact Hrun].
Defined.

Lemma Cluster_distMap_builtin_never_panics_witness :
  ∃ hf, Cluster 4 quickstart_set (MaxClusters 2) SingleLinkage = Some (Ok hf).
Proof.
  assert (Hcount : (Count quickstart_set ≤ Z.of_nat 4 + 1)%Z)
    by (vm_compute; discriminate).
  exact (proj1 (proj2 (Cluster_distMap_builtin_never_panics
                         quickstart_set (MaxClusters 2) 4 Hcount))
           SingleLinkage).
Defined.
